(** * DS1631: a shallow embedding of the DS1631 temperature-sensor driver

    Source: [DS1631.cpp] (Arduino library, I2C through [Wire]).

    Conventions of the embedding

    - Target: the AVR Arduino boards the library was written for:
      [int] is 16 bits, [long] and [int32_t] are 32 bits, [byte] and
      [uint8_t] are 8 bits.  Integers are [Z]; every conversion to a fixed
      width is written out ([to_u8], [to_u16], [to_ulong], [to_long]).
    - [float] and [double] values are rationals ([Q]).  Every float the
      driver computes is a multiple of 1/16 of magnitude at most 32768, and
      subtracting the integer part of a float and scaling by a power of two
      are exact in binary floating point, so the rational arithmetic below
      is the arithmetic the machine performs.  Module [IEEE] writes the
      codec once more in IEEE 754 arithmetic (Stdlib's [SpecFloat]), and the
      last section checks the rational codec against it.  A float-to-int
      conversion whose truncated value does not fit [int] has no defined
      result ([None]).
    - The class variables [_address], [MSByte], [LSByte] are fields of the
      [World] record, next to the state of the [Wire] object (transmit and
      receive buffers), a counter of the interactions with the outside
      (bus transactions and clock reads) and a log of those interactions.
    - The outside world is an oracle [Env]: the wall-clock time of the k-th
      interaction, the bytes the slave answers when the k-th interaction is
      a [requestFrom] (they may depend on the bytes last written to it), and
      the content of an uninitialised local.
    - Loops that wait on the clock take fuel; [None] means the fuel ran out. *)

From Stdlib Require Import ZArith QArith Qround List Bool Lia.
From Stdlib Require Import Floats.SpecFloat.
Import ListNotations.

Local Open Scope Z_scope.

(** ** Fixed-width integers of the target *)

Module Arduino.

Definition to_u8 (v : Z) : Z := v mod 256.
Definition to_u16 (v : Z) : Z := v mod 65536.
Definition to_ulong (v : Z) : Z := v mod 2 ^ 32.
Definition to_long (v : Z) : Z := (v + 2 ^ 31) mod 2 ^ 32 - 2 ^ 31.

Definition INT_MIN : Z := -32768.
Definition INT_MAX : Z := 32767.

(** [int(f)] on a float: truncation toward zero, undefined when the
    truncated value is not an [int]. *)
Definition Qtrunc (f : Q) : Z := Z.quot (Qnum f) (Zpos (Qden f)).

Definition float_to_int (f : Q) : option Z :=
  let z := Qtrunc f in
  if (INT_MIN <=? z) && (z <=? INT_MAX) then Some z else None.

(** [word(h, l)] of the Arduino core: [(h << 8) | l] as an unsigned int. *)
Definition word (h l : Z) : Z := to_u16 (Z.lor (Z.shiftl (to_u8 h) 8) (to_u8 l)).

End Arduino.
Import Arduino.

(** ** The outside world and the program state *)

(** An interaction: its number [k] and its wall-clock time [t]. *)
Inductive Event : Type :=
| EvTx (k : nat) (t : Z) (address : Z) (bytes : list Z)
    (* a committed write *)
| EvRx (k : nat) (t : Z) (address : Z) (quantity : Z) (bytes : list Z)
    (* a [requestFrom] and the bytes received *)
| EvMillis (k : nat) (t : Z).
    (* a clock read *)

Record Env : Type := mkEnv {
  time_at : nat -> Z;       (* wall-clock time, in ms, of the k-th interaction *)
  reply : nat -> list Z -> list Z;
                            (* what the slave sends if the k-th interaction is
                               a read, given the bytes last written to it *)
  junk : nat -> Z           (* content of an uninitialised local at that point *)
}.

Record World : Type := mkWorld {
  _address : Z;
  MSByte : Z;
  LSByte : Z;
  txAddress : Z;
  txBuffer : list Z;
  rxBuffer : list Z;
  tick : nat;
  log : list Event          (* newest first *)
}.

Definition set_MSByte (v : Z) (w : World) : World :=
  mkWorld (_address w) v (LSByte w) (txAddress w) (txBuffer w) (rxBuffer w)
          (tick w) (log w).

Definition set_LSByte (v : Z) (w : World) : World :=
  mkWorld (_address w) (MSByte w) v (txAddress w) (txBuffer w) (rxBuffer w)
          (tick w) (log w).

Definition set_tx (a : Z) (b : list Z) (w : World) : World :=
  mkWorld (_address w) (MSByte w) (LSByte w) a b (rxBuffer w) (tick w) (log w).

Definition set_rx (b : list Z) (w : World) : World :=
  mkWorld (_address w) (MSByte w) (LSByte w) (txAddress w) (txBuffer w) b
          (tick w) (log w).

(** One interaction with the outside: the counter moves on and the event is
    put on the log. *)
Definition interact (ev : Event) (w : World) : World :=
  mkWorld (_address w) (MSByte w) (LSByte w) (txAddress w) (txBuffer w)
          (rxBuffer w) (S (tick w)) (ev :: log w).

(** [DS1631::DS1631(int Addr)] *)
Definition DS1631 (Addr : Z) : World :=
  mkWorld (Addr + 72) 0 0 0 [] [] 0 [].

(** ** A state monad over [World] *)

Definition M (A : Type) : Type := World -> A * World.

Definition ret {A} (a : A) : M A := fun w => (a, w).

Definition bind {A B} (c : M A) (k : A -> M B) : M B :=
  fun w => let (a, w') := c w in k a w'.

Definition gets {A} (f : World -> A) : M A := fun w => (f w, w).

Definition modify (f : World -> World) : M unit := fun w => (tt, f w).

Declare Scope drv_scope.
Delimit Scope drv_scope with drv.
Notation "x <- c ;; k" := (bind c (fun x => k))
  (at level 61, c at next level, right associativity) : drv_scope.
Notation "c ;; k" := (bind c (fun _ => k))
  (at level 61, right associativity) : drv_scope.
Local Open Scope drv_scope.

Section Driver.

Variable e : Env.

(** ** The [Wire] object and the millisecond clock *)

Definition Wire_beginTransmission (address : Z) : M unit :=
  modify (set_tx address []).

Definition Wire_write (b : Z) : M unit :=
  modify (fun w => set_tx (txAddress w) (txBuffer w ++ [to_u8 b]) w).

Definition Wire_endTransmission : M unit :=
  modify (fun w =>
    interact (EvTx (tick w) (time_at e (tick w)) (txAddress w) (txBuffer w))
             w).

Definition Wire_requestFrom (address quantity : Z) : M unit :=
  modify (fun w =>
    let bytes := firstn (Z.to_nat quantity)
                        (map to_u8 (reply e (tick w) (txBuffer w))) in
    interact (EvRx (tick w) (time_at e (tick w)) address quantity bytes)
             (set_rx bytes w)).

Definition Wire_available : M Z :=
  gets (fun w => Z.of_nat (length (rxBuffer w))).

(** [Wire.read()] returns -1 when nothing is left in the buffer. *)
Definition Wire_read : M Z :=
  fun w => match rxBuffer w with
           | [] => (-1, w)
           | b :: rest => (b, set_rx rest w)
           end.

(** [millis()] is an [unsigned long]. *)
Definition millis : M Z :=
  fun w => (to_ulong (time_at e (tick w)),
            interact (EvMillis (tick w) (time_at e (tick w))) w).

(** ** Register and command interface *)

Definition stopConversion : M unit :=
  a <- gets _address ;;
  Wire_beginTransmission a ;;
  Wire_write 0x22 ;;
  Wire_endTransmission.

Definition startConversion : M unit :=
  a <- gets _address ;;
  Wire_beginTransmission a ;;
  Wire_write 0x51 ;;
  Wire_endTransmission.

Definition writeConfig (_data : Z) : M unit :=
  let _data := to_u8 _data in
  stopConversion ;;
  a <- gets _address ;;
  Wire_beginTransmission a ;;
  Wire_write 0xAC ;;
  Wire_write _data ;;
  Wire_endTransmission ;;
  startConversion.

(** [_data] is returned uninitialised when the slave sends nothing. *)
Definition readConfig : M Z :=
  _data <- gets (fun w => to_u8 (junk e (tick w))) ;;
  a <- gets _address ;;
  Wire_beginTransmission a ;;
  Wire_write 0xAC ;;
  Wire_endTransmission ;;
  Wire_requestFrom a 1 ;;
  n <- Wire_available ;;
  if negb (n =? 0) then
    b <- Wire_read ;;
    ret (to_u8 b)
  else ret _data.

Definition setActiveHigh (b : bool) : M unit :=
  config <- readConfig ;;
  if b then writeConfig (Z.lor config (Z.shiftl 1 1))
  else writeConfig (Z.land config (Z.lnot (Z.shiftl 1 1))).

Definition setOneShotMode (b : bool) : M unit :=
  config <- readConfig ;;
  if b then writeConfig (Z.lor config (Z.shiftl 1 0))
  else writeConfig (Z.land config (Z.lnot (Z.shiftl 1 0))).

Definition setResolution (res : Z) : M unit :=
  let res := to_u8 res in
  if (9 <=? res) && (res <=? 12) then
    config <- readConfig ;;
    let res := to_u8 (res - 9) in
    writeConfig (Z.lor config (Z.shiftl res 2))
  else ret tt.

Definition readTemperature (command : Z) : M unit :=
  let command := to_u8 command in
  a <- gets _address ;;
  Wire_beginTransmission a ;;
  Wire_write command ;;
  Wire_endTransmission ;;
  Wire_requestFrom a 2 ;;
  _ <- Wire_available ;;
  b1 <- Wire_read ;;
  modify (set_MSByte (to_u8 b1)) ;;
  _ <- Wire_available ;;
  b2 <- Wire_read ;;
  modify (set_LSByte (to_u8 b2)).

Definition readT : M unit := readTemperature 0xAA.

(** ** Fixed-point codec *)

Definition byteToFloat : M Q :=
  l <- gets LSByte ;;
  modify (set_LSByte (to_u8 (Z.shiftr l 4))) ;;
  m <- gets MSByte ;;
  if 0x80 <=? m then
    let negMSByte := inject_Z (m - 256) in
    l <- gets LSByte ;;
    ret (negMSByte + inject_Z l * 0.0625)%Q
  else
    l <- gets LSByte ;;
    ret (inject_Z m + inject_Z l * 0.0625)%Q.

(** [floatToByte] has no defined result when [int(f)] overflows. *)
Definition floatToByte (f : Q) (w : World) : option (unit * World) :=
  match float_to_int f with
  | None => None
  | Some i =>
    let w1 := set_MSByte (to_u8 i) w in
    match float_to_int ((f - inject_Z i) / 0.0625)%Q with
    | None => None
    | Some j =>
      let w2 := set_LSByte (to_u8 j) w1 in
      Some (tt, set_LSByte (to_u8 (Z.shiftl (LSByte w2) 4)) w2)
    end
  end.

Definition readTH : M Q := readTemperature 0xA1 ;; byteToFloat.
Definition readTL : M Q := readTemperature 0xA2 ;; byteToFloat.
Definition readTempF : M Q := readT ;; byteToFloat.

Definition writeTemperature (f : Q) (command : Z) (w : World)
  : option (unit * World) :=
  let command := to_u8 command in
  match floatToByte f w with
  | None => None
  | Some (_, w1) =>
    Some ((stopConversion ;;
           a <- gets _address ;;
           Wire_beginTransmission a ;;
           Wire_write command ;;
           (m <- gets MSByte ;; Wire_write m) ;;
           (l <- gets LSByte ;; Wire_write l) ;;
           Wire_endTransmission ;;
           startConversion) w1)
  end.

Definition writeTH (f : Q) := writeTemperature f 0xA1.
Definition writeTL (f : Q) := writeTemperature f 0xA2.

Definition readTempD : M Z :=
  readT ;;
  m <- gets MSByte ;;
  l <- gets LSByte ;;
  let T := Z.shiftl m 8 + l in
  let T := if 0x8000 <=? T then T - 0xFFFF else T in
  let T := Z.shiftr T 4 in
  ret T.

Definition conversionDone : M bool :=
  _data <- readConfig ;;
  if Z.lor _data 127 =? 255 then ret true else ret false.

(** ** One-shot polling *)

(** [while (elapsed < 50) { elapsed = millis() - lastMillis; }]:
    [millis()] is an [unsigned long], so [lastMillis] is converted to
    [unsigned long], the difference wraps, and the result is stored in the
    [long elapsed]. *)
Fixpoint busy_wait (fuel : nat) (lastMillis elapsed : Z) (w : World)
  : option (Z * World) :=
  if elapsed <? 50 then
    match fuel with
    | O => None
    | S fuel' =>
      let (now, w1) := millis w in
      busy_wait fuel' lastMillis (to_long (to_ulong (now - to_ulong lastMillis))) w1
    end
  else Some (elapsed, w).

(** How the [while ( !conversionDone() )] loop is left. *)
Inductive PollExit : Type :=
| Converted   (* the loop condition became false *)
| TimedOut.   (* [return -32768;] inside the loop *)

(** The polling loop, the same text in [readTempOneShot] and in
    [readTempOneShotInt]. *)
Fixpoint poll (fuel : nat) (lastMillis : Z) (w : World)
  : option (PollExit * World) :=
  match fuel with
  | O => None
  | S fuel' =>
    let (done, w1) := conversionDone w in
    if negb done then
      let elapsed := 0 in
      match busy_wait fuel' lastMillis elapsed w1 with
      | None => None
      | Some (elapsed, w2) =>
        if elapsed >? 1000 then Some (TimedOut, w2)
        else poll fuel' lastMillis w2
      end
    else Some (Converted, w1)
  end.

Definition readTempOneShot (fuel : nat) (w : World) : option (Q * World) :=
  let (now, w1) := millis w in
  let lastMillis := to_long now in
  let (_, w2) := startConversion w1 in
  match poll fuel lastMillis w2 with
  | None => None
  | Some (TimedOut, w3) => Some (inject_Z (-32768), w3)
  | Some (Converted, w3) =>
    Some ((T <- readTempF ;; stopConversion ;; ret T) w3)
  end.

Definition readTempOneShotInt (fuel : nat) (w : World) : option (Z * World) :=
  let (now, w1) := millis w in
  let lastMillis := to_long now in
  let (_, w2) := startConversion w1 in
  match poll fuel lastMillis w2 with
  | None => None
  | Some (TimedOut, w3) => Some (to_u16 (-32768), w3)
  | Some (Converted, w3) =>
    Some ((readT ;;
           m <- gets MSByte ;;
           l <- gets LSByte ;;
           let T := to_u16 (word m l) in
           ret T) w3)
  end.

End Driver.

(** ** The codec in IEEE 754 arithmetic

    [float] is binary32; [double] is binary32 on AVR and binary64 on the
    32-bit boards, so the format [D] of [double] is a parameter.  The
    literal [0.0625] is a [double]; an operation with a [double] operand is
    done in [double]. *)

Module IEEE.

Record format : Type := mkFormat { prec : Z; emax : Z }.

Definition binary32 : format := mkFormat 24 128.
Definition binary64 : format := mkFormat 53 1024.

Definition add (F : format) := SFadd (prec F) (emax F).
Definition sub (F : format) := SFsub (prec F) (emax F).
Definition mul (F : format) := SFmul (prec F) (emax F).
Definition div (F : format) := SFdiv (prec F) (emax F).

(** Integer to floating point. *)
Definition of_Z (F : format) (z : Z) : spec_float :=
  binary_normalize (prec F) (emax F) z 0 false.

(** m * 2^e, rounded to the format. *)
Definition of_scaled (F : format) (m e : Z) : spec_float :=
  binary_normalize (prec F) (emax F) m e false.

(** Conversion between the formats. *)
Definition convert (F : format) (x : spec_float) : spec_float :=
  match x with
  | S754_finite s m e => binary_round (prec F) (emax F) s m e
  | _ => x
  end.

(** The number a floating-point datum stands for. *)
Definition value (x : spec_float) : option Q :=
  match x with
  | S754_zero _ => Some 0%Q
  | S754_finite s m e =>
    let q := match e with
             | Z0 => inject_Z (Zpos m)
             | Zpos p => inject_Z (Zpos m * 2 ^ Zpos p)
             | Zneg p => Zpos m # (2 ^ p)
             end in
    Some (if s then (- q)%Q else q)
  | _ => None
  end.

(** [int(x)]: truncation of the value, undefined on NaN, infinities and
    values that do not fit [int]. *)
Definition to_int (x : spec_float) : option Z :=
  match value x with
  | Some q => float_to_int q
  | None => None
  end.

Definition sixteenth (D : format) : spec_float := of_scaled D 1 (-4).

Definition byteToFloat (D : format) (MSByte LSByte : Z) : spec_float :=
  let LSByte := to_u8 (Z.shiftr LSByte 4) in
  if 0x80 <=? MSByte then
    let negMSByte := of_Z binary32 (MSByte - 256) in
    let T := add D (convert D negMSByte)
                   (mul D (convert D (of_Z binary32 LSByte)) (sixteenth D)) in
    convert binary32 T
  else
    let T := add D (convert D (of_Z binary32 MSByte))
                   (mul D (convert D (of_Z binary32 LSByte)) (sixteenth D)) in
    convert binary32 T.

(** The bytes [floatToByte] leaves in [MSByte] and [LSByte]. *)
Definition floatToByte (D : format) (f : spec_float) : option (Z * Z) :=
  match to_int f with
  | None => None
  | Some i =>
    let MSByte := to_u8 i in
    match to_int (div D (convert D (sub binary32 f (of_Z binary32 i)))
                        (sixteenth D)) with
    | None => None
    | Some j =>
      let LSByte := to_u8 j in
      let LSByte := to_u8 (Z.shiftl LSByte 4) in
      Some (MSByte, LSByte)
    end
  end.

End IEEE.

(** ** Reading the log *)

(** The configuration register is the only one-byte read of the driver. *)
Definition is_config_read (ev : Event) : bool :=
  match ev with
  | EvRx _ _ _ quantity _ => quantity =? 1
  | _ => false
  end.

Definition event_time (ev : Event) : Z :=
  match ev with
  | EvTx _ t _ _ => t
  | EvRx _ t _ _ _ => t
  | EvMillis _ t => t
  end.

(** Times of the configuration reads, oldest first. *)
Definition config_read_times (l : list Event) : list Z :=
  map event_time (filter is_config_read (rev l)).

(** The clock values [millis()] returned, newest first. *)
Fixpoint millis_readings (l : list Event) : list Z :=
  match l with
  | [] => []
  | EvMillis _ t :: l' => t :: millis_readings l'
  | _ :: l' => millis_readings l'
  end.

(** Payloads of the committed writes, newest first. *)
Fixpoint written (l : list Event) : list (list Z) :=
  match l with
  | [] => []
  | EvTx _ _ _ bytes :: l' => bytes :: written l'
  | _ :: l' => written l'
  end.

(** Every two consecutive elements of a list of times are at least [d]
    apart. *)
Fixpoint spaced (d : Z) (ts : list Z) : bool :=
  match ts with
  | t1 :: ((t2 :: _) as rest) => (d <=? t2 - t1) && spaced d rest
  | _ => true
  end.

(** The configuration byte [readConfig] obtains when its [requestFrom] is
    the k-th interaction (its local was declared one interaction before). *)
Definition config_seen (e : Env) (k : nat) : Z :=
  match firstn 1 (map to_u8 (reply e k [0xAC])) with
  | b :: _ => to_u8 b
  | [] => to_u8 (junk e (pred k))
  end.

(** The configuration bytes [readConfig] returned, newest first. *)
Fixpoint config_observed (e : Env) (l : list Event) : list Z :=
  match l with
  | [] => []
  | ev :: l' =>
    match ev with
    | EvRx k _ _ _ _ =>
      if is_config_read ev then config_seen e k :: config_observed e l'
      else config_observed e l'
    | _ => config_observed e l'
    end
  end.

(** ** Environments for concrete runs *)

(** A slave that answers every read with the same bytes, each interaction
    taking [dt] ms. *)
Definition steady (dt : Z) (bytes : list Z) : Env :=
  mkEnv (fun k => dt * Z.of_nat k) (fun _ _ => bytes) (fun _ => 0).

(** A DS1631 whose conversion is done from interaction [done_from] on:
    the configuration register is [config] with bit 7 set accordingly, and
    the temperature register holds the bytes [m], [l]. *)
Definition sensor (dt : Z) (done_from : nat) (config m l : Z) : Env :=
  mkEnv (fun k => dt * Z.of_nat k)
        (fun k command =>
           match command with
           | [0xAC] => [if (k <? done_from)%nat then Z.land config 0x7F
                        else Z.lor config 0x80]
           | [0xAA] => [m; l]
           | _ => []
           end)
        (fun _ => 0).

Definition idle : World := DS1631 0.

(** ** Vocabulary of the specification *)

Definition all_bytes : list Z := map Z.of_nat (seq 0 256).

(** The whole-degree part of a reading: the byte read as an 8-bit
    two's-complement number. *)
Definition whole (m : Z) : Z := if 128 <=? m then m - 256 else m.

(** The fixed-point decode in the words of the specification: the 16-bit
    word, minus 0xFFFF when its top bit is set, shifted right by 4. *)
Definition decodeQ4 (m l : Z) : Z :=
  let word16 := Z.lor (Z.shiftl m 8) l in
  let T := if word16 <? 0x8000 then word16 else word16 - 0xFFFF in
  Z.shiftr T 4.

(** Bits 2-3 of a configuration byte: the resolution selector. *)
Definition resolution_bits (config : Z) : Z := Z.land (Z.shiftr config 2) 3.

(** The configuration byte of the most recent Access Config write. *)
Fixpoint config_written (l : list Event) : option Z :=
  match l with
  | [] => None
  | EvTx _ _ _ [0xAC; c] :: _ => Some c
  | _ :: l' => config_written l'
  end.

(** The sixteenths [floatToByte] extracts from the fractional remainder. *)
Definition frac16 (f : Q) : Z :=
  Qtrunc ((f - inject_Z (Qtrunc f)) / 0.0625)%Q.

(** Encode, then decode what was stored. *)
Definition round_trip (f : Q) (w : World) : option Q :=
  match floatToByte f w with
  | Some (_, w1) => Some (fst (byteToFloat w1))
  | None => None
  end.

(** The entry of a one-shot read: [lastMillis] and the world in which the
    polling loop starts. *)
Definition poll_start (e : Env) (w : World) : Z * World :=
  let (now, w1) := millis e w in
  (to_long now, snd (startConversion e w1)).

(** The class variables are the same in two worlds. *)
Definition same_vars (w w' : World) : Prop :=
  _address w' = _address w /\ MSByte w' = MSByte w /\ LSByte w' = LSByte w.

(** How the polling loop that started at time [t0] ends, in terms of what it
    added to the log.  With [TimedOut], no configuration byte that was read
    had bit 7 set, the last thing that happened is a clock read more than
    1000 ms after [t0], and every clock read before it was at most 1000 ms
    after [t0].  With [Converted], the last configuration byte read has
    bit 7 set and no clock read was beyond 1000 ms. *)
Definition poll_outcome (e : Env) (t0 : Z) (ex : PollExit) (new : list Event)
  : Prop :=
  match ex with
  | TimedOut =>
    Forall (fun c => Z.testbit c 7 = false) (config_observed e new) /\
    exists k t rest earlier,
      new = EvMillis k t :: rest /\
      millis_readings new = t :: earlier /\
      1000 < t - t0 /\
      Forall (fun t' => t' - t0 <= 1000) earlier
  | Converted =>
    (exists c older,
       config_observed e new = c :: older /\ Z.testbit c 7 = true) /\
    Forall (fun t' => t' - t0 <= 1000) (millis_readings new)
  end.

(** A world holding a given raw temperature word. *)
Definition holding (m l : Z) : World := set_LSByte l (set_MSByte m idle).

(** The rational decode and the IEEE decode agree on the raw word with high
    byte [m] and high nibble [n] of the low byte. *)
Definition decode_agrees (D : IEEE.format) (m n : Z) : bool :=
  match IEEE.value (IEEE.byteToFloat D m (Z.shiftl n 4)) with
  | Some q => Qeq_bool q (fst (byteToFloat (holding m (Z.shiftl n 4))))
  | None => false
  end.

Definition all_nibbles : list Z := map Z.of_nat (seq 0 16).

(** The rational encode and the IEEE encode of [k / 16] store the same
    bytes. *)
Definition encode_agrees (D : IEEE.format) (k : Z) : bool :=
  match IEEE.floatToByte D (IEEE.of_scaled IEEE.binary32 k (-4)),
        floatToByte (k # 16) idle with
  | Some (m, l), Some (_, w) => (m =? MSByte w) && (l =? LSByte w)
  | _, _ => false
  end.

(** The sixteenths from -128 up to 128. *)
Definition sixteenths_grid : list Z :=
  map (fun n => Z.of_nat n - 2048) (seq 0 (2 * 2048)).





(** * Properties *)

(** ** Bytes *)

Lemma in_all_bytes (c : Z) : 0 <= c < 256 -> In c all_bytes.
Proof.
  intros Hc. unfold all_bytes.
  replace c with (Z.of_nat (Z.to_nat c)) by lia.
  apply in_map, in_seq. lia.
Qed.

Lemma byte_cases (P : Z -> bool) :
  forallb P all_bytes = true -> forall c, 0 <= c < 256 -> P c = true.
Proof.
  intros HP c Hc. rewrite forallb_forall in HP. apply HP, in_all_bytes, Hc.
Qed.

Lemma to_u8_range (v : Z) : 0 <= to_u8 v < 256.
Proof. unfold to_u8. apply Z.mod_pos_bound. lia. Qed.

Lemma to_u8_small (v : Z) : 0 <= v < 256 -> to_u8 v = v.
Proof. intros Hv. unfold to_u8. apply Z.mod_small, Hv. Qed.

Lemma to_u8_idem (v : Z) : to_u8 (to_u8 v) = to_u8 v.
Proof. apply to_u8_small, to_u8_range. Qed.

Lemma nibble_range (l : Z) : 0 <= l < 256 -> 0 <= Z.shiftr l 4 < 16.
Proof.
  intros Hl. rewrite Z.shiftr_div_pow2 by lia. change (2 ^ 4) with 16.
  split; [apply Z.div_pos; lia | apply Z.div_lt_upper_bound; lia].
Qed.

Create HintDb bytes.
#[local] Hint Resolve to_u8_range nibble_range : bytes.

(** ** The conversion-done flag *)

Lemma done_formula_bit7 (c : Z) :
  (Z.lor (to_u8 c) 127 =? 255) = Z.testbit (to_u8 c) 7.
Proof.
  pose proof (byte_cases
    (fun b => Bool.eqb (Z.lor b 127 =? 255) (Z.testbit b 7)) eq_refl
    (to_u8 c) (to_u8_range c)) as H.
  apply Bool.eqb_prop, H.
Qed.

(** What [readConfig] does: one write of the Access Config opcode, one
    one-byte read; the class variables are not touched. *)
Lemma readConfig_spec (e : Env) (w : World) :
  let t1 := time_at e (tick w) in
  let t2 := time_at e (S (tick w)) in
  let bytes := firstn 1 (map to_u8 (reply e (S (tick w)) [0xAC])) in
  let w' := snd (readConfig e w) in
  fst (readConfig e w) = config_seen e (S (tick w)) /\
  log w' = EvRx (S (tick w)) t2 (_address w) 1 bytes
           :: EvTx (tick w) t1 (_address w) [0xAC] :: log w /\
  tick w' = S (S (tick w)) /\
  _address w' = _address w /\ MSByte w' = MSByte w /\ LSByte w' = LSByte w.
Proof.
  unfold readConfig, config_seen, bind, gets, modify, Wire_beginTransmission,
    Wire_write, Wire_endTransmission, Wire_requestFrom, Wire_available,
    Wire_read, ret; cbn.
  destruct (map to_u8 (reply e (S (tick w)) [0xAC])) as [|b rest]; cbn; auto 10.
Qed.

Lemma config_seen_range (e : Env) (k : nat) : 0 <= config_seen e k < 256.
Proof.
  unfold config_seen.
  destruct (firstn 1 (map to_u8 (reply e k [0xAC]))); auto with bytes.
Qed.

Lemma conversionDone_spec (e : Env) (w : World) :
  conversionDone e w =
  (Z.testbit (fst (readConfig e w)) 7, snd (readConfig e w)).
Proof.
  unfold conversionDone, bind.
  pose proof (readConfig_spec e w) as [Hc _].
  destruct (readConfig e w) as [c w']. unfold fst, snd in *.
  pose proof (done_formula_bit7 c) as H.
  rewrite to_u8_small in H by (rewrite Hc; apply config_seen_range).
  rewrite H. unfold ret. destruct (Z.testbit c 7); reflexivity.
Qed.

(** C6.  [conversionDone] returns [true] exactly when bit 7 of the
    configuration byte it reads is set; the byte is one of the 256 byte
    values, and on every byte value the test [(config | 127) == 255] of the
    code agrees with the direct test of bit 7. *)
Theorem conversionDone_iff_bit7 (e : Env) (w : World) :
  (forall c : Z, (Z.lor (to_u8 c) 127 =? 255) = Z.testbit (to_u8 c) 7) /\
  0 <= fst (readConfig e w) < 256 /\
  fst (conversionDone e w) = Z.testbit (fst (readConfig e w)) 7 /\
  snd (conversionDone e w) = snd (readConfig e w).
Proof.
  split; [exact done_formula_bit7|].
  rewrite conversionDone_spec.
  pose proof (readConfig_spec e w) as [Hc _].
  repeat split; try reflexivity; rewrite Hc; apply config_seen_range.
Qed.

(** Every byte value can be the configuration byte that is read. *)
Lemma readConfig_any_byte (c : Z) :
  0 <= c < 256 -> fst (readConfig (steady 1 [c]) idle) = c.
Proof.
  intros Hc. pose proof (readConfig_spec (steady 1 [c]) idle) as [H _].
  rewrite H. unfold config_seen. cbn. rewrite to_u8_idem. apply to_u8_small, Hc.
Qed.

(** ** Decoding to a float *)

Lemma byteToFloat_eq (w : World) :
  byteToFloat w =
  ((if 0x80 <=? MSByte w
    then inject_Z (MSByte w - 256) + inject_Z (to_u8 (Z.shiftr (LSByte w) 4)) * 0.0625
    else inject_Z (MSByte w) + inject_Z (to_u8 (Z.shiftr (LSByte w) 4)) * 0.0625)%Q,
   set_LSByte (to_u8 (Z.shiftr (LSByte w) 4)) w).
Proof.
  destruct w as [a m l ta tb rb k lg].
  unfold byteToFloat, bind, gets, modify, ret, set_LSByte, MSByte, LSByte.
  destruct (0x80 <=? m); reflexivity.
Qed.

Lemma byteToFloat_whole (w : World) :
  0 <= LSByte w < 256 ->
  fst (byteToFloat w) =
  (inject_Z (whole (MSByte w)) + inject_Z (Z.shiftr (LSByte w) 4) * 0.0625)%Q.
Proof.
  intros Hl. rewrite byteToFloat_eq. unfold fst, whole.
  rewrite to_u8_small by (pose proof (nibble_range _ Hl); lia).
  change 0x80 with 128. destruct (128 <=? MSByte w); reflexivity.
Qed.

Lemma byteToFloat_state (w : World) :
  0 <= MSByte w < 256 -> 0 <= LSByte w < 256 ->
  LSByte (snd (byteToFloat w)) = Z.shiftr (LSByte w) 4 /\
  MSByte (snd (byteToFloat w)) = MSByte w /\
  log (snd (byteToFloat w)) = log w.
Proof.
  intros Hm Hl. rewrite byteToFloat_eq.
  destruct w; cbn [snd set_LSByte LSByte MSByte log] in *.
  split; [| split; reflexivity].
  apply to_u8_small. pose proof (nibble_range _ Hl). lia.
Qed.

(** Comparisons of rationals as comparisons of integers. *)
Ltac Q_to_Z :=
  unfold Qeq, Qle, Qlt, Qplus, Qminus, Qopp, Qmult, inject_Z in *;
  cbn -[Z.mul Z.add Z.sub Z.opp] in *.

Lemma Qplus_fraction (a n : Z) :
  (inject_Z a + inject_Z n * 0.0625 == (16 * a + n) # 16)%Q.
Proof. Q_to_Z. lia. Qed.

(** C1, as amended.  On stored bytes, [byteToFloat] returns
    W + (LSByte >> 4) * 0.0625 with W = MSByte - 256 when MSByte >= 128 and
    W = MSByte otherwise; the fraction is added, never subtracted, so 0xFF
    with high nibble 8 is -0.5; for MSByte in [0,127] the result is
    MSByte + nibble * 0.0625, which is non-negative, and positive unless both
    MSByte and the high nibble are 0. *)
Theorem byteToFloat_value (w : World) :
  0 <= MSByte w < 256 -> 0 <= LSByte w < 256 ->
  let r := fst (byteToFloat w) in
  let nibble := Z.shiftr (LSByte w) 4 in
  (r == inject_Z (whole (MSByte w)) + inject_Z nibble * 0.0625)%Q /\
  (inject_Z (whole (MSByte w)) <= r)%Q /\
  (MSByte w = 0xFF -> nibble = 8 -> (r == -0.5)%Q) /\
  (MSByte w <= 127 ->
   (r == inject_Z (MSByte w) + inject_Z nibble * 0.0625)%Q /\
   (0 <= r)%Q /\
   ((0 < r)%Q <-> ~ (MSByte w = 0 /\ nibble = 0))).
Proof.
  intros Hm Hl r nibble.
  assert (Hr : r = (inject_Z (whole (MSByte w)) + inject_Z nibble * 0.0625)%Q)
    by (unfold r, nibble; apply byteToFloat_whole; exact Hl).
  assert (Hn : 0 <= nibble < 16) by (unfold nibble; auto with bytes).
  rewrite Hr. clearbody r nibble. clear Hr.
  assert (Hw : MSByte w <= 127 -> whole (MSByte w) = MSByte w).
  { unfold whole. destruct (Z.leb_spec 128 (MSByte w)); lia. }
  split; [reflexivity |].
  split; [rewrite Qplus_fraction; Q_to_Z; lia |].
  split; [intros Em En; rewrite Em, En; reflexivity |].
  intros Hpos. rewrite (Hw Hpos).
  split; [reflexivity |].
  rewrite Qplus_fraction.
  split; [Q_to_Z; lia |].
  split; [intros H0 | intros Hnz]; Q_to_Z; lia.
Qed.

Lemma byteToFloat_value_witness :
  (0 <= MSByte (holding 0xFF 0x80) < 256 /\
   0 <= LSByte (holding 0xFF 0x80) < 256) /\
  (fst (byteToFloat (holding 0xFF 0x80)) == -0.5)%Q.
Proof.
  assert (Hm : 0 <= MSByte (holding 0xFF 0x80) < 256) by (cbn; lia).
  assert (Hl : 0 <= LSByte (holding 0xFF 0x80) < 256) by (cbn; lia).
  split; [split; assumption |].
  destruct (byteToFloat_value (holding 0xFF 0x80) Hm Hl) as (_ & _ & H & _).
  apply H; reflexivity.
Defined.

(** The reading 0 degrees is in the range MSByte in [0,127] and decodes to 0,
    which is not positive. *)
Lemma byteToFloat_zero_not_positive :
  0 <= MSByte (holding 0 0) <= 127 /\
  (fst (byteToFloat (holding 0 0)) == 0)%Q /\
  ~ (0 < fst (byteToFloat (holding 0 0)))%Q.
Proof.
  split; [cbn; lia |]. split; [reflexivity |].
  cbv. discriminate.
Qed.

(** C9.  [byteToFloat] overwrites [LSByte] with [LSByte >> 4]: a second call
    on the same reading sees high nibble 0 and returns the whole part alone,
    which differs from the first result whenever the original high nibble was
    not 0; the stored low byte then has a non-zero low nibble. *)
Theorem byteToFloat_destroys_LSByte (w : World) :
  0 <= MSByte w < 256 -> 0 <= LSByte w < 256 ->
  let r1 := fst (byteToFloat w) in
  let w1 := snd (byteToFloat w) in
  let r2 := fst (byteToFloat w1) in
  let nibble := Z.shiftr (LSByte w) 4 in
  LSByte w1 = nibble /\ MSByte w1 = MSByte w /\
  (r2 == inject_Z (whole (MSByte w)))%Q /\
  (nibble <> 0 ->
   ~ (r2 == r1)%Q /\ LSByte w1 <> LSByte w /\ Z.land (LSByte w1) 0x0F <> 0) /\
  (nibble = 0 -> (r2 == r1)%Q).
Proof.
  intros Hm Hl r1 w1 r2 nibble.
  assert (Hn : 0 <= nibble < 16) by (unfold nibble; auto with bytes).
  assert (Hl1 : LSByte w1 = nibble).
  { unfold w1. rewrite byteToFloat_eq. destruct w; cbn [snd set_LSByte LSByte].
    apply to_u8_small. cbn [LSByte] in Hl. pose proof (nibble_range _ Hl). lia. }
  assert (Hm1 : MSByte w1 = MSByte w).
  { unfold w1. rewrite byteToFloat_eq. destruct w; reflexivity. }
  assert (Hr1 : r1 = (inject_Z (whole (MSByte w)) + inject_Z nibble * 0.0625)%Q)
    by (unfold r1, nibble; apply byteToFloat_whole; exact Hl).
  assert (Hr2 : r2 = (inject_Z (whole (MSByte w)) + inject_Z 0 * 0.0625)%Q).
  { unfold r2. rewrite byteToFloat_whole by lia. rewrite Hm1, Hl1.
    rewrite (Z.shiftr_div_pow2 nibble 4) by lia.
    rewrite Z.div_small by (change (2 ^ 4) with 16; lia). reflexivity. }
  assert (Hnib : nibble <> 0 -> nibble <> LSByte w).
  { unfold nibble. rewrite Z.shiftr_div_pow2 by lia. change (2 ^ 4) with 16.
    intros Hnz Heq. pose proof (Z.div_mod (LSByte w) 16 ltac:(lia)).
    pose proof (Z.mod_pos_bound (LSByte w) 16 ltac:(lia)). lia. }
  rewrite Hl1, Hm1, Hr1, Hr2. clearbody r1 r2 nibble w1.
  split; [reflexivity |]. split; [reflexivity |].
  split; [rewrite Qplus_fraction; Q_to_Z; lia |].
  split.
  - intros Hnz. split; [| split].
    + rewrite !Qplus_fraction. Q_to_Z. lia.
    + auto.
    + change 0x0F with (Z.ones 4). rewrite Z.land_ones by lia.
      change (2 ^ 4) with 16. rewrite Z.mod_small; lia.
  - intros ->. reflexivity.
Qed.

Lemma byteToFloat_destroys_LSByte_witness :
  (0 <= MSByte (holding 0x19 0x80) < 256 /\
   0 <= LSByte (holding 0x19 0x80) < 256) /\
  LSByte (snd (byteToFloat (holding 0x19 0x80))) = 8 /\
  ~ (fst (byteToFloat (snd (byteToFloat (holding 0x19 0x80))))
     == fst (byteToFloat (holding 0x19 0x80)))%Q.
Proof.
  assert (Hm : 0 <= MSByte (holding 0x19 0x80) < 256) by (cbn; lia).
  assert (Hl : 0 <= LSByte (holding 0x19 0x80) < 256) by (cbn; lia).
  split; [split; assumption |].
  destruct (byteToFloat_destroys_LSByte (holding 0x19 0x80) Hm Hl)
    as (H1 & _ & _ & H2 & _).
  split; [exact H1 |]. apply H2. cbn. discriminate.
Defined.

(** ** Decoding to sixteenths of a degree *)

(** What [readTemperature] does: one write of the opcode, one two-byte read,
    and the two bytes stored in [MSByte] and [LSByte] (255 for a byte the
    slave did not send, since [Wire.read()] is then -1). *)
Lemma readTemperature_spec (e : Env) (command : Z) (w : World) :
  let t1 := time_at e (tick w) in
  let t2 := time_at e (S (tick w)) in
  let bytes := firstn 2 (map to_u8 (reply e (S (tick w))
                                          [to_u8 (to_u8 command)])) in
  let w' := snd (readTemperature e command w) in
  MSByte w' = to_u8 (nth 0 bytes (-1)) /\
  LSByte w' = to_u8 (nth 1 bytes (-1)) /\
  log w' = EvRx (S (tick w)) t2 (_address w) 2 bytes
           :: EvTx (tick w) t1 (_address w) [to_u8 (to_u8 command)] :: log w /\
  tick w' = S (S (tick w)) /\ _address w' = _address w.
Proof.
  unfold readTemperature, bind, gets, modify, Wire_beginTransmission,
    Wire_write, Wire_endTransmission, Wire_requestFrom, Wire_available,
    Wire_read, ret; cbn.
  destruct (map to_u8 (reply e (S (tick w)) [to_u8 (to_u8 command)]))
    as [|b1 [|b2 rest]]; cbn; auto 10.
Qed.

Lemma readTempD_eq (e : Env) (w : World) :
  let w' := snd (readT e w) in
  readTempD e w =
  (Z.shiftr (let T := Z.shiftl (MSByte w') 8 + LSByte w' in
             if 0x8000 <=? T then T - 0xFFFF else T) 4, w').
Proof.
  unfold readTempD, bind, gets, ret.
  destruct (readT e w) as [[] w']. reflexivity.
Qed.

Lemma word16_add_lor (m l : Z) :
  0 <= m < 256 -> 0 <= l < 256 ->
  Z.shiftl m 8 + l = Z.lor (Z.shiftl m 8) l.
Proof.
  intros Hm Hl.
  pose proof (byte_cases
    (fun a => forallb (fun b => Z.shiftl a 8 + b =? Z.lor (Z.shiftl a 8) b)
                      all_bytes)
    ltac:(vm_compute; reflexivity) m Hm) as H.
  cbv beta in H. rewrite forallb_forall in H.
  apply Z.eqb_eq, H, in_all_bytes, Hl.
Qed.

Lemma readTempD_readT (e : Env) (w : World) :
  let w' := snd (readT e w) in
  0 <= MSByte w' < 256 /\ 0 <= LSByte w' < 256 /\
  readTempD e w = (decodeQ4 (MSByte w') (LSByte w'), w').
Proof.
  intros w'.
  destruct (readTemperature_spec e 0xAA w) as (Hm & Hl & _).
  fold (readT e) in Hm, Hl. fold w' in Hm, Hl.
  assert (Bm : 0 <= MSByte w' < 256) by (rewrite Hm; auto with bytes).
  assert (Bl : 0 <= LSByte w' < 256) by (rewrite Hl; auto with bytes).
  split; [exact Bm |]. split; [exact Bl |].
  rewrite readTempD_eq. fold w'. unfold decodeQ4. cbv zeta.
  rewrite (word16_add_lor _ _ Bm Bl).
  set (word16 := Z.lor _ _).
  destruct (Z.leb_spec 0x8000 word16), (Z.ltb_spec word16 0x8000);
    try lia; reflexivity.
Qed.

(** C2.  When the slave answers the temperature read with the bytes
    [m], [l], [readTempD] stores them and returns the word
    [(m << 8) | l], minus 0xFFFF when it is at least 0x8000, shifted right
    arithmetically by 4; the bytes 0x19, 0x00 give 400. *)
Theorem readTempD_decodeQ4 (e : Env) (w : World) (m l : Z) :
  0 <= m < 256 -> 0 <= l < 256 ->
  reply e (S (tick w)) [0xAA] = [m; l] ->
  let word16 := Z.lor (Z.shiftl m 8) l in
  MSByte (snd (readTempD e w)) = m /\ LSByte (snd (readTempD e w)) = l /\
  fst (readTempD e w) = decodeQ4 m l /\
  (word16 < 0x8000 -> fst (readTempD e w) = Z.shiftr word16 4) /\
  (0x8000 <= word16 -> fst (readTempD e w) = Z.shiftr (word16 - 0xFFFF) 4) /\
  decodeQ4 0x19 0x00 = 400.
Proof.
  intros Hm Hl Hreply word16.
  destruct (readTemperature_spec e 0xAA w) as (Em & El & _).
  fold (readT e) in Em, El.
  change (to_u8 (to_u8 0xAA)) with 0xAA in Em, El. rewrite Hreply in Em, El.
  cbn [firstn map nth] in Em, El.
  rewrite to_u8_idem, to_u8_small in Em, El by assumption.
  destruct (readTempD_readT e w) as (_ & _ & HD).
  rewrite HD, Em, El. cbn [fst snd].
  split; [exact Em |]. split; [exact El |]. split; [reflexivity |].
  unfold decodeQ4. fold word16. cbv zeta.
  split; [| split; [| reflexivity]]; intros Hw;
    destruct (Z.ltb_spec word16 0x8000); try lia; reflexivity.
Qed.

Lemma readTempD_decodeQ4_witness :
  (0 <= 0x19 < 256 /\ 0 <= 0x00 < 256 /\
   reply (steady 1 [0x19; 0x00]) (S (tick idle)) [0xAA] = [0x19; 0x00]) /\
  fst (readTempD (steady 1 [0x19; 0x00]) idle) = 400.
Proof.
  assert (Hm : 0 <= 0x19 < 256) by lia.
  assert (Hl : 0 <= 0x00 < 256) by lia.
  assert (Hr : reply (steady 1 [0x19; 0x00]) (S (tick idle)) [0xAA]
               = [0x19; 0x00]) by reflexivity.
  split; [auto |].
  destruct (readTempD_decodeQ4 (steady 1 [0x19; 0x00]) idle 0x19 0x00 Hm Hl Hr)
    as (_ & _ & H & _ & _ & H400).
  rewrite H. exact H400.
Defined.

(** The subtraction of 0xFFFF instead of 0x10000 shows in the result only
    when the low nibble of the low byte is 15; the sensor sends it as 0. *)
Lemma decodeQ4_twos_complement (m l : Z) :
  0 <= m < 256 -> 0 <= l < 256 -> 0x80 <= m ->
  decodeQ4 m l =
  Z.shiftr (Z.lor (Z.shiftl m 8) l - 0x10000) 4
  + (if Z.land l 0x0F =? 0x0F then 1 else 0).
Proof.
  intros Hm Hl Hneg.
  pose proof (byte_cases
    (fun a => forallb (fun b =>
       (a <? 0x80) ||
       (decodeQ4 a b =? Z.shiftr (Z.lor (Z.shiftl a 8) b - 0x10000) 4
                        + (if Z.land b 0x0F =? 0x0F then 1 else 0)))
       all_bytes)
    ltac:(vm_compute; reflexivity) m Hm) as H.
  cbv beta in H. rewrite forallb_forall in H.
  specialize (H l (in_all_bytes l Hl)).
  destruct (Z.ltb_spec m 0x80); [lia |]. apply Z.eqb_eq, H.
Qed.

(** ** Setting the resolution *)

Lemma writeConfig_log (e : Env) (c : Z) (w : World) :
  written (log (snd (writeConfig e c w))) =
  [0x51] :: [0xAC; to_u8 (to_u8 c)] :: [0x22] :: written (log w) /\
  config_written (log (snd (writeConfig e c w))) = Some (to_u8 (to_u8 c)).
Proof. split; reflexivity. Qed.

Lemma setResolution_out_of_range (e : Env) (res : Z) (w : World) :
  0 <= res < 256 -> ~ 9 <= res <= 12 -> setResolution e res w = (tt, w).
Proof.
  intros Hb Hr. unfold setResolution. rewrite (to_u8_small res Hb).
  destruct (Z.leb_spec 9 res), (Z.leb_spec res 12); try lia; reflexivity.
Qed.

Lemma lor_resolution (c r : Z) :
  0 <= c < 256 -> 0 <= r <= 3 ->
  to_u8 (Z.lor c (Z.shiftl r 2)) = Z.lor c (Z.shiftl r 2) /\
  resolution_bits (Z.lor c (Z.shiftl r 2)) = Z.lor (resolution_bits c) r.
Proof.
  intros Hc Hr.
  pose proof (byte_cases
    (fun a => forallb (fun b =>
       (to_u8 (Z.lor a (Z.shiftl b 2)) =? Z.lor a (Z.shiftl b 2)) &&
       (resolution_bits (Z.lor a (Z.shiftl b 2)) =? Z.lor (resolution_bits a) b))
       [0; 1; 2; 3])
    ltac:(vm_compute; reflexivity) c Hc) as H.
  cbv beta in H. rewrite forallb_forall in H.
  assert (Hin : In r [0; 1; 2; 3]) by (cbn; lia).
  apply H, andb_prop in Hin. destruct Hin as [H1 H2].
  split; apply Z.eqb_eq; assumption.
Qed.

(** What [setResolution] does.  Out of [9,12]: nothing at all.  In [9,12]:
    the configuration byte that was read is written back OR-ed with
    [(res - 9) << 2], so bits 2-3 of the byte written are the OR of the old
    bits 2-3 with [res - 9]. *)
Lemma setResolution_spec (e : Env) (res : Z) (w : World) :
  0 <= res < 256 ->
  let c := fst (readConfig e w) in
  let w' := snd (setResolution e res w) in
  (~ 9 <= res <= 12 -> w' = w) /\
  (9 <= res <= 12 ->
   config_written (log w') = Some (Z.lor c (Z.shiftl (res - 9) 2)) /\
   resolution_bits (Z.lor c (Z.shiftl (res - 9) 2))
   = Z.lor (resolution_bits c) (res - 9)).
Proof.
  intros Hb c w'. split.
  - intros Hr. unfold w'. rewrite setResolution_out_of_range; auto.
  - intros Hr.
    assert (Hc : 0 <= c < 256).
    { unfold c. destruct (readConfig_spec e w) as [-> _].
      apply config_seen_range. }
    destruct (lor_resolution c (res - 9) Hc ltac:(lia)) as [Hu Hbits].
    split; [| exact Hbits].
    unfold w', setResolution. rewrite (to_u8_small res Hb).
    destruct (Z.leb_spec 9 res), (Z.leb_spec res 12); try lia.
    cbn [andb]. unfold bind at 1. fold c.
    destruct (readConfig e w) as [c0 w0] eqn:E. cbn [fst] in c. subst c.
    rewrite (to_u8_small (res - 9)) by lia.
    destruct (writeConfig_log e (Z.lor c0 (Z.shiftl (res - 9) 2)) w0) as [_ ->].
    rewrite Hu, Hu. reflexivity.
Qed.

(** C7, the failing case.  With bits 2-3 of the configuration byte at 3
    (12 bits), [setResolution(9)] writes the byte back unchanged: bits 2-3 of
    the byte written are still 3, not 9 - 9 = 0. *)
Theorem setResolution_cannot_lower :
  let e := steady 1 [0x0C] in
  let w' := snd (setResolution e 9 idle) in
  fst (readConfig e idle) = 0x0C /\
  config_written (log w') = Some 0x0C /\
  resolution_bits 0x0C = 3 /\
  resolution_bits 0x0C <> 9 - 9.
Proof. cbv zeta. repeat split. vm_compute. discriminate. Qed.

(** ** Encoding a float *)

Lemma quot_bounds (a b : Z) :
  0 < b ->
  a = b * Z.quot a b + Z.rem a b /\
  (0 <= a -> 0 <= Z.rem a b < b /\ 0 <= Z.quot a b) /\
  (a <= 0 -> - b < Z.rem a b <= 0 /\ Z.quot a b <= 0).
Proof.
  intros Hb. split; [apply Z.quot_rem' |]. split; intros Ha.
  - split; [apply Z.rem_bound_pos; lia | apply Z.quot_pos; lia].
  - pose proof (Z.rem_bound_abs a b ltac:(lia)).
    pose proof (Z.rem_nonpos a b ltac:(lia) Ha).
    split; [lia |].
    rewrite <- (Z.opp_involutive a), Z.quot_opp_l by lia.
    pose proof (Z.quot_pos (- a) b ltac:(lia) Hb). lia.
Qed.

Lemma Qtrunc_comp (f g : Q) : (f == g)%Q -> Qtrunc f = Qtrunc g.
Proof.
  destruct f as [a b], g as [c d]. unfold Qeq, Qtrunc; cbn [Qnum Qden].
  intros H.
  rewrite <- (Z.quot_mul_cancel_r a (Z.pos b) (Z.pos d)) by lia.
  rewrite H, (Z.mul_comm (Z.pos b)).
  apply Z.quot_mul_cancel_r; lia.
Qed.

Lemma Qtrunc_inject_Z (z : Z) : Qtrunc (inject_Z z) = z.
Proof. unfold Qtrunc, inject_Z; cbn [Qnum Qden]. apply Z.quot_1_r. Qed.

Lemma frac16_eq (f : Q) :
  frac16 f = Z.quot (16 * Z.rem (Qnum f) (Zpos (Qden f))) (Zpos (Qden f)).
Proof.
  destruct f as [a b]. unfold frac16, Qtrunc. cbn [Qnum Qden].
  unfold Qdiv, Qminus, Qplus, Qopp, Qmult, Qinv, inject_Z. cbn [Qnum Qden].
  pose proof (Z.quot_rem' a (Z.pos b)) as Hqr.
  replace (a * 1 + - (a ÷ Z.pos b) * Z.pos b) with (Z.rem a (Z.pos b)) by lia.
  rewrite !Pos2Z.inj_mul, Z.mul_1_r.
  replace (Z.rem a (Z.pos b) * 10000) with (16 * Z.rem a (Z.pos b) * 625) by lia.
  apply Z.quot_mul_cancel_r; lia.
Qed.

Lemma frac16_comp (f g : Q) : (f == g)%Q -> frac16 f = frac16 g.
Proof.
  intros H. unfold frac16. apply Qtrunc_comp.
  rewrite (Qtrunc_comp f g H), H. reflexivity.
Qed.

(** The remainder of a value in (-1, 1) has at most 15 sixteenths, of the
    sign of the value. *)
Lemma frac16_bounds (f : Q) :
  -15 <= frac16 f <= 15 /\
  ((f <= 0)%Q -> frac16 f <= 0) /\ ((0 <= f)%Q -> 0 <= frac16 f).
Proof.
  rewrite frac16_eq. destruct f as [a b]. unfold Qle. cbn [Qnum Qden].
  set (r := Z.rem a (Z.pos b)).
  destruct (quot_bounds a (Z.pos b) ltac:(lia)) as (_ & Hp & Hn). fold r in Hp, Hn.
  destruct (quot_bounds (16 * r) (Z.pos b) ltac:(lia)) as (E & Hp' & Hn').
  set (q := (16 * r) ÷ Z.pos b) in *. set (r' := Z.rem (16 * r) (Z.pos b)) in *.
  destruct (Z.le_gt_cases 0 a) as [Ha | Ha].
  - destruct (Hp Ha) as [Hr _]. destruct (Hp' ltac:(lia)) as [Hr' Hq].
    split; [nia |]. split; intros; nia.
  - destruct (Hn ltac:(lia)) as [Hr _]. destruct (Hn' ltac:(lia)) as [Hr' Hq].
    split; [nia |]. split; intros; nia.
Qed.

Lemma float_to_int_in_range (f : Q) :
  INT_MIN <= Qtrunc f <= INT_MAX -> float_to_int f = Some (Qtrunc f).
Proof.
  intros H. unfold float_to_int. cbv zeta.
  destruct (Z.leb_spec INT_MIN (Qtrunc f)), (Z.leb_spec (Qtrunc f) INT_MAX);
    try lia; reflexivity.
Qed.

(** [floatToByte] is defined as soon as [int(f)] is, and stores the
    truncated value and the sixteenths of the remainder. *)
Lemma floatToByte_eq (f : Q) (w : World) :
  INT_MIN <= Qtrunc f <= INT_MAX ->
  floatToByte f w =
  Some (tt, set_LSByte (to_u8 (Z.shiftl (to_u8 (frac16 f)) 4))
                       (set_LSByte (to_u8 (frac16 f))
                                   (set_MSByte (to_u8 (Qtrunc f)) w))).
Proof.
  intros H. unfold floatToByte. rewrite (float_to_int_in_range f H).
  fold (frac16 f). rewrite float_to_int_in_range; [reflexivity |].
  pose proof (frac16_bounds f). unfold INT_MIN, INT_MAX. fold (frac16 f). lia.
Qed.

(** ** Encoding, then decoding *)

Lemma whole_range (x : Z) : -128 <= whole (to_u8 x) <= 127.
Proof.
  pose proof (to_u8_range x). unfold whole.
  destruct (Z.leb_spec 128 (to_u8 x)); lia.
Qed.

Lemma whole_to_u8 (t : Z) : -128 <= t <= 127 -> whole (to_u8 t) = t.
Proof.
  intros Ht. unfold whole, to_u8.
  destruct (Z.le_gt_cases 0 t).
  - rewrite Z.mod_small by lia. destruct (Z.leb_spec 128 t); lia.
  - replace (t mod 256) with (t + 256).
    + destruct (Z.leb_spec 128 (t + 256)); lia.
    + apply Z.mod_unique with (q := -1); lia.
Qed.

Lemma stored_nibble (j : Z) :
  -15 <= j <= 15 ->
  0 <= to_u8 (Z.shiftl (to_u8 j) 4) < 256 /\
  Z.shiftr (to_u8 (Z.shiftl (to_u8 j) 4)) 4 = j mod 16.
Proof.
  intros Hj. split; [apply to_u8_range |].
  assert (Hin : In (j + 15) (map Z.of_nat (seq 0 31))).
  { replace (j + 15) with (Z.of_nat (Z.to_nat (j + 15))) by lia.
    apply in_map, in_seq. lia. }
  assert (Hall : forallb
    (fun k => Z.shiftr (to_u8 (Z.shiftl (to_u8 (k - 15)) 4)) 4 =? (k - 15) mod 16)
    (map Z.of_nat (seq 0 31)) = true) by (vm_compute; reflexivity).
  rewrite forallb_forall in Hall. apply Hall, Z.eqb_eq in Hin.
  replace (j + 15 - 15) with j in Hin by lia. exact Hin.
Qed.

Lemma round_trip_eq (f : Q) (w : World) :
  INT_MIN <= Qtrunc f <= INT_MAX ->
  round_trip f w =
  Some (inject_Z (whole (to_u8 (Qtrunc f)))
        + inject_Z (frac16 f mod 16) * 0.0625)%Q.
Proof.
  intros H. unfold round_trip. rewrite (floatToByte_eq f w H).
  destruct (frac16_bounds f) as [Hj _].
  destruct (stored_nibble (frac16 f) Hj) as [Hb Hn].
  rewrite byteToFloat_whole by (destruct w; exact Hb).
  destruct w; cbn [set_LSByte set_MSByte MSByte LSByte].
  rewrite Hn. reflexivity.
Qed.

Lemma Qtrunc_nonpos (f : Q) :
  (f <= 0)%Q ->
  Qtrunc f <= 0 /\ (f <= inject_Z (Qtrunc f))%Q /\
  ((inject_Z (Qtrunc f) <= f)%Q -> Z.rem (Qnum f) (Zpos (Qden f)) = 0).
Proof.
  destruct f as [a b]. unfold Qle, Qtrunc, inject_Z. cbn [Qnum Qden].
  intros Ha.
  destruct (quot_bounds a (Z.pos b) ltac:(lia)) as (E & _ & Hn).
  destruct (Hn ltac:(lia)) as [Hr Hq].
  split; [exact Hq |]. split; [nia |]. intros Hle. nia.
Qed.

Lemma integral_frac16 (f : Q) (z : Z) :
  (f == inject_Z z)%Q -> Qtrunc f = z /\ frac16 f = 0.
Proof.
  intros H. rewrite (Qtrunc_comp _ _ H), (frac16_comp _ _ H), Qtrunc_inject_Z.
  split; [reflexivity |]. rewrite frac16_eq. cbn [inject_Z Qnum Qden].
  rewrite Z.rem_1_r. reflexivity.
Qed.

(** C4, as amended.  For a negative float [f] (above the [int] range's
    lower end, so that the encoding is defined), decoding what
    [floatToByte] stored gives a value that is never below [f], and that is
    [f] exactly when [f] is an integer in [-128, -1]; every other negative
    [f] comes back different. *)
Theorem negative_round_trip (f : Q) (w : World) :
  (-32769 < f)%Q -> (f < 0)%Q ->
  exists r : Q,
    round_trip f w = Some r /\
    (f <= r)%Q /\
    ((r == f)%Q <-> exists z : Z, -128 <= z <= -1 /\ (f == inject_Z z)%Q).
Proof.
  intros Hlo Hneg.
  destruct (Qtrunc_nonpos f (Qlt_le_weak _ _ Hneg)) as (Ht0 & Hft & Hint).
  assert (Hmin : INT_MIN <= Qtrunc f).
  { unfold INT_MIN. destruct f as [a b].
    unfold Qlt, Qtrunc in *. cbn [Qnum Qden] in *.
    destruct (quot_bounds a (Z.pos b) ltac:(lia)) as (E & _ & Hn).
    destruct (Hn ltac:(lia)) as [Hr _]. nia. }
  eexists. split; [apply round_trip_eq; unfold INT_MAX; lia |].
  destruct (frac16_bounds f) as [Hj _].
  pose proof (Z.mod_pos_bound (frac16 f) 16 ltac:(lia)) as Hnib.
  pose proof (whole_range (Qtrunc f)) as HW.
  assert (HWt : Qtrunc f <= whole (to_u8 (Qtrunc f))).
  { destruct (Z.le_gt_cases (-128) (Qtrunc f)).
    - rewrite whole_to_u8; lia.
    - lia. }
  set (W := whole (to_u8 (Qtrunc f))) in *.
  set (nib := frac16 f mod 16) in *.
  set (t := Qtrunc f) in *.
  rewrite Qplus_fraction.
  split; [| split].
  - destruct f as [a b]. Q_to_Z. nia.
  - intros Heq. exists t.
    assert (Hfacts : nib = 0 /\ W = t /\ (f == inject_Z t)%Q).
    { clear Hint. destruct f as [a b]. Q_to_Z.
      assert (16 * a <= 16 * (t * Z.pos b)) by nia.
      assert (16 * (t * Z.pos b) <= 16 * (W * Z.pos b)) by nia.
      assert (16 * (W * Z.pos b) <= (16 * W + nib) * Z.pos b) by nia.
      assert ((16 * W + nib) * Z.pos b = 16 * a) by nia.
      split; [nia |]. split; nia. }
    destruct Hfacts as (_ & HWeq & Hfz).
    split; [| exact Hfz].
    split; [lia |].
    destruct (Z.eq_dec t 0) as [E0 | ]; [| lia].
    exfalso. rewrite E0 in Hfz. rewrite Hfz in Hneg. revert Hneg. cbv. discriminate.
  - intros (z & Hz & Hfz).
    destruct (integral_frac16 f z Hfz) as [Et Ej].
    unfold nib, W. fold t. rewrite Ej. unfold t. rewrite Et, whole_to_u8 by lia.
    rewrite Hfz. change (0 mod 16) with 0.
    unfold Qeq, inject_Z. cbn [Qnum Qden]. lia.
Qed.

Lemma negative_round_trip_witness :
  ((-32769 < -1.5)%Q /\ (-1.5 < 0)%Q) /\
  exists r : Q,
    round_trip (-1.5) idle = Some r /\ ~ (r == -1.5)%Q.
Proof.
  assert (Hlo : (-32769 < -1.5)%Q) by reflexivity.
  assert (Hneg : (-1.5 < 0)%Q) by reflexivity.
  split; [split; assumption |].
  destruct (negative_round_trip (-1.5) idle Hlo Hneg) as (r & Hr & _ & Hiff).
  exists r. split; [exact Hr |].
  intros Heq. apply Hiff in Heq. destruct Heq as (z & Hz & Hfz).
  revert Hfz. Q_to_Z. lia.
Defined.

(** The float -1.0 is negative and comes back from the round trip as -1.0. *)
Lemma minus_one_round_trips :
  (-1 < 0)%Q /\
  exists r : Q, round_trip (-1) idle = Some r /\ (r == -1)%Q.
Proof.
  split; [reflexivity |].
  eexists. split; reflexivity.
Qed.

(** C5.  A non-negative integral float up to 127 is stored as
    [MSByte = f], [LSByte = 0], and decodes back to [f]. *)
Theorem nonneg_integral_round_trip (f : Q) (z : Z) (w : World) :
  0 <= z <= 127 -> (f == inject_Z z)%Q ->
  exists w1 : World,
    floatToByte f w = Some (tt, w1) /\
    MSByte w1 = z /\ LSByte w1 = 0 /\
    (fst (byteToFloat w1) == f)%Q /\
    round_trip f w = Some (fst (byteToFloat w1)).
Proof.
  intros Hz Hf.
  destruct (integral_frac16 f z Hf) as [Et Ej].
  assert (Hin : INT_MIN <= Qtrunc f <= INT_MAX)
    by (rewrite Et; unfold INT_MIN, INT_MAX; lia).
  eexists. split; [apply floatToByte_eq, Hin |].
  rewrite Et, Ej.
  destruct w as [a m l ta tb rb k lg].
  cbn [set_LSByte set_MSByte MSByte LSByte].
  split; [apply to_u8_small; lia |]. split; [reflexivity |].
  split.
  - rewrite byteToFloat_whole by (cbn; lia).
    cbn [set_LSByte set_MSByte MSByte LSByte]. rewrite whole_to_u8 by lia.
    rewrite Hf. change (Z.shiftr (to_u8 (Z.shiftl (to_u8 0) 4)) 4) with 0.
    rewrite Qplus_fraction. unfold Qeq, inject_Z. cbn [Qnum Qden]. lia.
  - unfold round_trip.
    rewrite (floatToByte_eq f (mkWorld a m l ta tb rb k lg) Hin), Et, Ej.
    reflexivity.
Qed.

Lemma nonneg_integral_round_trip_witness :
  (0 <= 25 <= 127 /\ (25.0 == inject_Z 25)%Q) /\
  exists w1 : World,
    floatToByte 25.0 idle = Some (tt, w1) /\
    MSByte w1 = 0x19 /\ LSByte w1 = 0x00 /\
    (fst (byteToFloat w1) == 25.0)%Q.
Proof.
  assert (Hz : 0 <= 25 <= 127) by lia.
  assert (Hf : (25.0 == inject_Z 25)%Q) by reflexivity.
  split; [split; assumption |].
  destruct (nonneg_integral_round_trip 25.0 25 idle Hz Hf)
    as (w1 & H1 & H2 & H3 & H4 & _).
  exists w1. auto.
Defined.

(** From 128 on the stored byte is read back as negative: 200.0 is stored as
    [MSByte = 200] and decodes to -56. *)
Lemma round_trip_200 :
  exists w1 : World,
    floatToByte 200 idle = Some (tt, w1) /\ MSByte w1 = 200 /\
    (fst (byteToFloat w1) == -56)%Q.
Proof. eexists. repeat split. Qed.

(** ** The polling loop *)

Lemma elapsed_exact (t0 t : Z) :
  0 <= t - t0 < 2 ^ 31 ->
  to_long (to_ulong (to_ulong t - to_ulong (to_long (to_ulong t0)))) = t - t0.
Proof.
  unfold to_long, to_ulong.
  change (2 ^ 32) with 4294967296. change (2 ^ 31) with 2147483648.
  intros H. Z.div_mod_to_equations. lia.
Qed.

Lemma busy_wait_fuel_mono (e : Env) (lastMillis : Z) (fuel fuel' : nat) :
  (fuel <= fuel')%nat ->
  forall elapsed w r,
    busy_wait e fuel lastMillis elapsed w = Some r ->
    busy_wait e fuel' lastMillis elapsed w = Some r.
Proof.
  revert fuel'. induction fuel as [|fuel IH]; intros fuel' Hle elapsed w r.
  - destruct fuel'; cbn; destruct (elapsed <? 50); auto; discriminate.
  - destruct fuel' as [|fuel']; [lia |]. cbn.
    destruct (elapsed <? 50); [| auto].
    apply IH. lia.
Qed.

Lemma poll_fuel_mono (e : Env) (lastMillis : Z) (fuel fuel' : nat) :
  (fuel <= fuel')%nat ->
  forall w r,
    poll e fuel lastMillis w = Some r -> poll e fuel' lastMillis w = Some r.
Proof.
  revert fuel'. induction fuel as [|fuel IH]; intros fuel' Hle w r.
  - discriminate.
  - destruct fuel' as [|fuel']; [lia |]. cbn.
    destruct (conversionDone e w) as [done w1].
    destruct done; cbn [negb]; [auto |].
    destruct (busy_wait e fuel lastMillis 0 w1) as [[el w2]|] eqn:Eb;
      [| discriminate].
    rewrite (busy_wait_fuel_mono e lastMillis fuel fuel' ltac:(lia) _ _ _ Eb).
    destruct (el >? 1000); [auto |]. apply IH. lia.
Qed.

Lemma millis_readings_app (l1 l2 : list Event) :
  millis_readings (l1 ++ l2) = millis_readings l1 ++ millis_readings l2.
Proof.
  induction l1 as [|[] l1 IH]; cbn; rewrite ?IH; reflexivity.
Qed.

Lemma config_observed_app (e : Env) (l1 l2 : list Event) :
  config_observed e (l1 ++ l2) = config_observed e l1 ++ config_observed e l2.
Proof.
  induction l1 as [|ev l1 IH]; [reflexivity |].
  destruct ev; cbn [config_observed app]; rewrite ?IH; try reflexivity.
  destruct (is_config_read _); rewrite ?IH; reflexivity.
Qed.

Lemma same_vars_refl (w : World) : same_vars w w.
Proof. repeat split. Qed.

Lemma same_vars_trans (w1 w2 w3 : World) :
  same_vars w1 w2 -> same_vars w2 w3 -> same_vars w1 w3.
Proof. unfold same_vars. intuition congruence. Qed.

Lemma conversionDone_step (e : Env) (w : World) :
  let c := config_seen e (S (tick w)) in
  let w1 := snd (conversionDone e w) in
  fst (conversionDone e w) = Z.testbit c 7 /\
  (exists new, log w1 = new ++ log w /\
               config_observed e new = [c] /\ millis_readings new = []) /\
  tick w1 = S (S (tick w)) /\ same_vars w w1.
Proof.
  cbv zeta. rewrite conversionDone_spec. cbn [fst snd].
  destruct (readConfig_spec e w) as (Hc & Hlog & Htick & Hvars).
  rewrite Hc. split; [reflexivity |].
  split; [| split; [exact Htick | exact Hvars]].
  eexists [_; _]. split; [exact Hlog |]. split; reflexivity.
Qed.

Section Deadline.

Variable e : Env.
Variable k0 : nat.          (* the interaction at which [lastMillis] is read *)
Variable N : nat.           (* from here on the clock is past the deadline *)
Variable B : nat.           (* the interactions the hypotheses speak of *)

Let t0 : Z := time_at e k0.
Let lastMillis : Z := to_long (to_ulong t0).

Hypothesis clock_range :
  forall k, (k0 <= k <= B)%nat -> 0 <= time_at e k - t0 < 2 ^ 31.
Hypothesis clock_deadline :
  forall k, (N <= k <= B)%nat -> 1000 < time_at e k - t0.
Hypothesis deadline_in_range : (N + 2 <= B)%nat.

(** The busy wait ends, at the first clock value 50 ms or more after
    [t0]. *)
Lemma busy_wait_returns (n : nat) :
  forall (w : World) (elapsed : Z),
    (N - tick w <= n)%nat -> (k0 <= tick w <= B)%nat -> elapsed < 50 ->
    exists fuel k t earlier rest w',
      busy_wait e fuel lastMillis elapsed w = Some (t - t0, w') /\
      50 <= t - t0 /\
      log w' = (EvMillis k t :: rest) ++ log w /\
      millis_readings (EvMillis k t :: rest) = t :: earlier /\
      config_observed e (EvMillis k t :: rest) = [] /\
      Forall (fun t' => t' - t0 < 50) earlier /\
      tick w' = S k /\ t = time_at e k /\
      (tick w <= k <= Nat.max (tick w) N)%nat /\
      same_vars w w'.
Proof.
  induction n as [|n IH]; intros w elapsed Hn Hk Hel.
  - (* the clock is already past the deadline *)
    exists 1%nat, (tick w), (time_at e (tick w)), [], [], (snd (millis e w)).
    pose proof (clock_deadline (tick w) ltac:(lia)) as Hd.
    pose proof (clock_range (tick w) Hk) as Hr.
    cbn [busy_wait]. destruct (Z.ltb_spec elapsed 50); [| lia].
    unfold millis at 1. unfold lastMillis. rewrite (elapsed_exact _ _ Hr).
    destruct (Z.ltb_spec (time_at e (tick w) - t0) 50); [lia |].
    cbn. repeat split; auto; lia.
  - pose proof (clock_range (tick w) Hk) as Hr.
    destruct (Z.lt_ge_cases (time_at e (tick w) - t0) 50) as [Hlt | Hge].
    + (* still early: read the clock again *)
      assert (HN : (tick w < N)%nat).
      { destruct (Nat.lt_ge_cases (tick w) N) as [|Hc]; [assumption |].
        pose proof (clock_deadline (tick w) ltac:(lia)). lia. }
      destruct (IH (snd (millis e w)) (time_at e (tick w) - t0)
                   ltac:(cbn; lia) ltac:(cbn; lia) Hlt)
        as (fuel & k & t & earlier & rest & w' & Hb & H50 & Hlog & Hmr & Hco
            & Hall & Htk & Ht & HkN & Hv).
      exists (S fuel), k, t, (earlier ++ [time_at e (tick w)]),
             (rest ++ [EvMillis (tick w) (time_at e (tick w))]), w'.
      cbn [busy_wait]. destruct (Z.ltb_spec elapsed 50); [| lia].
      unfold millis at 1. unfold lastMillis. rewrite (elapsed_exact _ _ Hr).
      fold lastMillis. split; [exact Hb |]. split; [exact H50 |].
      split; [rewrite Hlog; cbn; rewrite <- app_assoc; reflexivity |].
      split.
      { change (EvMillis k t :: rest ++ [EvMillis (tick w) (time_at e (tick w))])
          with ((EvMillis k t :: rest) ++ [EvMillis (tick w) (time_at e (tick w))]).
        rewrite millis_readings_app, Hmr. reflexivity. }
      split.
      { change (EvMillis k t :: rest ++ [EvMillis (tick w) (time_at e (tick w))])
          with ((EvMillis k t :: rest) ++ [EvMillis (tick w) (time_at e (tick w))]).
        rewrite config_observed_app, Hco. reflexivity. }
      split; [apply Forall_app; split; [exact Hall | repeat constructor; exact Hlt] |].
      cbn [tick snd millis interact] in HkN.
      split; [exact Htk |]. split; [exact Ht |].
      split; [lia |].
      destruct Hv as (? & ? & ?). repeat split; assumption.
    + (* 50 ms or more have passed *)
      exists 1%nat, (tick w), (time_at e (tick w)), [], [], (snd (millis e w)).
      cbn [busy_wait]. destruct (Z.ltb_spec elapsed 50); [| lia].
      unfold millis at 1. unfold lastMillis. rewrite (elapsed_exact _ _ Hr).
      destruct (Z.ltb_spec (time_at e (tick w) - t0) 50); [lia |].
      cbn. repeat split; auto; lia.
Qed.

(** The polling loop ends, in one of the two ways of [poll_outcome]. *)
Lemma poll_returns (n : nat) :
  forall w : World,
    (N - tick w <= n)%nat -> (k0 <= tick w)%nat -> (tick w + 2 <= B)%nat ->
    exists fuel ex w' new,
      poll e fuel lastMillis w = Some (ex, w') /\
      log w' = new ++ log w /\
      poll_outcome e t0 ex new /\
      same_vars w w' /\ (tick w <= tick w')%nat.
Proof.
  induction n as [|n IH]; intros w Hn Hk HB.
  all: destruct (conversionDone_step e w)
         as (Hd & (new1 & Hlog1 & Hco1 & Hmr1) & Htk1 & Hv1).
  all: destruct (conversionDone e w) as [done w1] eqn:Ecd; cbn [fst snd] in *.
  all: destruct done.
  1, 3: exists 1%nat, Converted, w1, new1; cbn [poll];
        rewrite Ecd; cbn [negb];
        (split; [reflexivity |]); (split; [exact Hlog1 |]);
        (split; [| split; [exact Hv1 | lia]]);
        (split; [exists (config_seen e (S (tick w))), []; auto
                | rewrite Hmr1; constructor]).
  all: destruct (busy_wait_returns (N - tick w1) w1 0
                   ltac:(lia) ltac:(lia) ltac:(lia))
         as (fb & k & t & earlier & rest & w2 & Hb & H50 & Hlog2 & Hmr2 & Hco2
             & Hall & Htk2 & Ht & Hkk & Hv2).
  all: fold t0 lastMillis in Hb, H50, Hall.
  - (* past the deadline: this wait times out *)
    pose proof (clock_deadline k ltac:(lia)) as Hdead. fold t0 in Hdead.
    rewrite <- Ht in Hdead.
    exists (S fb), TimedOut, w2, ((EvMillis k t :: rest) ++ new1).
    cbn [poll]. rewrite Ecd. cbn [negb]. rewrite Hb.
    destruct (Z.gtb_spec (t - t0) 1000); [| lia].
    split; [reflexivity |].
    split; [rewrite Hlog2, Hlog1, app_assoc; reflexivity |].
    split; [| split; [exact (same_vars_trans _ _ _ Hv1 Hv2) | lia]].
    split.
    + rewrite config_observed_app, Hco2, Hco1. cbn.
      repeat constructor. symmetry. exact Hd.
    + exists k, t, (rest ++ new1), earlier.
      split; [reflexivity |].
      split; [rewrite millis_readings_app, Hmr2, Hmr1, app_nil_r; reflexivity |].
      split; [lia |].
      eapply Forall_impl; [| exact Hall]. cbv beta. intros; lia.
  - destruct (Z.le_gt_cases (t - t0) 1000) as [Hle | Hgt].
    + (* not yet: poll again *)
      assert (HkN : (k < N)%nat).
      { destruct (Nat.lt_ge_cases k N) as [|Hc]; [assumption |].
        pose proof (clock_deadline k ltac:(lia)) as Hc'. fold t0 in Hc'. lia. }
      destruct (IH w2 ltac:(lia) ltac:(lia) ltac:(lia))
        as (fp & ex & w3 & new3 & Hp & Hlog3 & Hout & Hv3 & Htk3).
      exists (S (Nat.max fb fp)), ex, w3,
             (new3 ++ (EvMillis k t :: rest) ++ new1).
      cbn [poll]. rewrite Ecd. cbn [negb].
      rewrite (busy_wait_fuel_mono e lastMillis fb _ (Nat.le_max_l fb fp) _ _ _ Hb).
      destruct (Z.gtb_spec (t - t0) 1000); [lia |].
      split; [exact (poll_fuel_mono e lastMillis fp _ (Nat.le_max_r fb fp) _ _ Hp) |].
      split; [rewrite Hlog3, Hlog2, Hlog1, !app_assoc; reflexivity |].
      split; [| split; [exact (same_vars_trans _ _ _ Hv1
                                 (same_vars_trans _ _ _ Hv2 Hv3)) | lia]].
      assert (Hold : Forall (fun t' => t' - t0 <= 1000)
                       (millis_readings ((EvMillis k t :: rest) ++ new1))).
      { rewrite millis_readings_app, Hmr2, Hmr1, app_nil_r.
        constructor; [exact Hle |].
        eapply Forall_impl; [| exact Hall]. cbv beta. intros; lia. }
      assert (Hcfg : config_observed e ((EvMillis k t :: rest) ++ new1)
                     = [config_seen e (S (tick w))])
        by (rewrite config_observed_app, Hco2, Hco1; reflexivity).
      destruct ex; unfold poll_outcome in *.
      * destruct Hout as ((c & older & Hc & Hbit) & Hread).
        split.
        -- exists c, (older ++ [config_seen e (S (tick w))]).
           rewrite config_observed_app, Hc, Hcfg. auto.
        -- rewrite millis_readings_app. apply Forall_app. auto.
      * destruct Hout as (Hclear & k' & t' & rest' & earlier' & Hnew & Hmr'
                          & Hlate & Hearly).
        split.
        -- rewrite config_observed_app, Hcfg. apply Forall_app.
           split; [exact Hclear |]. repeat constructor. symmetry. exact Hd.
        -- exists k', t', (rest' ++ (EvMillis k t :: rest) ++ new1),
                  (earlier' ++ millis_readings ((EvMillis k t :: rest) ++ new1)).
           split; [rewrite Hnew; reflexivity |].
           split; [rewrite millis_readings_app, Hmr'; reflexivity |].
           split; [exact Hlate |]. apply Forall_app. auto.
    + (* more than 1000 ms: time out *)
      exists (S fb), TimedOut, w2, ((EvMillis k t :: rest) ++ new1).
      cbn [poll]. rewrite Ecd. cbn [negb]. rewrite Hb.
      destruct (Z.gtb_spec (t - t0) 1000); [| lia].
      split; [reflexivity |].
      split; [rewrite Hlog2, Hlog1, app_assoc; reflexivity |].
      split; [| split; [exact (same_vars_trans _ _ _ Hv1 Hv2) | lia]].
      split.
      * rewrite config_observed_app, Hco2, Hco1. cbn.
        repeat constructor. symmetry. exact Hd.
      * exists k, t, (rest ++ new1), earlier.
        split; [reflexivity |].
        split; [rewrite millis_readings_app, Hmr2, Hmr1, app_nil_r; reflexivity |].
        split; [lia |].
        eapply Forall_impl; [| exact Hall]. cbv beta. intros; lia.
Qed.

End Deadline.

(** ** One-shot reads *)

Lemma command_spec (e : Env) (w : World) :
  (log (snd (startConversion e w))
   = EvTx (tick w) (time_at e (tick w)) (_address w) [0x51] :: log w /\
   tick (snd (startConversion e w)) = S (tick w) /\
   same_vars w (snd (startConversion e w))) /\
  (log (snd (stopConversion e w))
   = EvTx (tick w) (time_at e (tick w)) (_address w) [0x22] :: log w /\
   tick (snd (stopConversion e w)) = S (tick w) /\
   same_vars w (snd (stopConversion e w))).
Proof. destruct w. repeat split. Qed.

Lemma readTempF_eq (e : Env) (w : World) :
  readTempF e w = byteToFloat (snd (readT e w)).
Proof. unfold readTempF, bind. destruct (readT e w). reflexivity. Qed.

(** The float a temperature read decodes to lies in [-128, 128). *)
Lemma readTempF_range (e : Env) (w : World) :
  let T := fst (readTempF e w) in
  let w' := snd (readTempF e w) in
  (T == inject_Z (whole (MSByte w')) + inject_Z (LSByte w') * 0.0625)%Q /\
  0 <= MSByte w' < 256 /\ 0 <= LSByte w' < 16 /\
  (-128 <= T)%Q /\ (T < 128)%Q /\
  exists new, log w' = new ++ log w /\
    config_observed e new = [] /\ millis_readings new = [].
Proof.
  cbv zeta. rewrite readTempF_eq.
  destruct (readTemperature_spec e 0xAA w) as (Hm & Hl & Hlog & _).
  fold (readT e) in Hm, Hl, Hlog.
  set (w1 := snd (readT e w)) in *.
  assert (Bm : 0 <= MSByte w1 < 256) by (rewrite Hm; auto with bytes).
  assert (Bl : 0 <= LSByte w1 < 256) by (rewrite Hl; auto with bytes).
  destruct (byteToFloat_state w1 Bm Bl) as (El & Em & Elog).
  pose proof (nibble_range _ Bl) as Hn.
  rewrite El, Em, byteToFloat_whole by exact Bl.
  split; [reflexivity |]. split; [exact Bm |]. split; [exact Hn |].
  assert (HW : -128 <= whole (MSByte w1) <= 127).
  { unfold whole. destruct (Z.leb_spec 128 (MSByte w1)); lia. }
  rewrite Qplus_fraction.
  split; [Q_to_Z; lia |]. split; [Q_to_Z; lia |].
  eexists [_; _]. rewrite Elog. split; [exact Hlog |]. split; reflexivity.
Qed.

(** C3.  Let the clock never run backwards, be more than 1000 ms past the
    start of the poll at some interaction [N], and not be 2^31 ms past it a
    few interactions later.  Then [readTempOneShot] returns.  If no configuration byte it read had bit 7
    set, it returns -32768, the last thing it did is the clock read that
    showed more than 1000 ms elapsed, and every clock read before that showed
    at most 1000 ms.  If a configuration byte it read had bit 7 set, no
    clock read showed more than 1000 ms and it returns the decoded
    temperature that was read next, a value in [-128, 128), not -32768. *)
Theorem readTempOneShot_outcomes (e : Env) (w : World) (N : nat) :
  let t0 := time_at e (tick w) in
  (forall k, time_at e k <= time_at e (S k)) ->
  (tick w <= N)%nat -> 1000 < time_at e N - t0 ->
  time_at e (N + 4) - t0 < 2 ^ 31 ->
  exists fuel T w' new,
    readTempOneShot e fuel w = Some (T, w') /\
    log w' = new ++ log w /\
    (Forall (fun c => Z.testbit c 7 = false) (config_observed e new) ->
     T = inject_Z (-32768) /\
     exists k t rest earlier,
       new = EvMillis k t :: rest /\
       millis_readings new = t :: earlier /\
       1000 < t - t0 /\
       Forall (fun t' => t' - t0 <= 1000) earlier) /\
    (Exists (fun c => Z.testbit c 7 = true) (config_observed e new) ->
     (exists w3, T = fst (readTempF e w3)) /\
     (T == inject_Z (whole (MSByte w')) + inject_Z (LSByte w') * 0.0625)%Q /\
     (-128 <= T)%Q /\ (T < 128)%Q /\ ~ (T == inject_Z (-32768))%Q /\
     Forall (fun t' => t' - t0 <= 1000) (millis_readings new)).
Proof.
  intros t0 Hmono HN Hpast Hbound.
  assert (Hle : forall j k, (j <= k)%nat -> time_at e j <= time_at e k).
  { intros j k Hjk. induction Hjk as [|k Hjk IH]; [lia |].
    pose proof (Hmono k). lia. }
  assert (Hrange : forall k, (tick w <= k <= N + 4)%nat ->
                             0 <= time_at e k - t0 < 2 ^ 31).
  { intros k Hk. pose proof (Hle (tick w) k ltac:(lia)).
    pose proof (Hle k (N + 4)%nat ltac:(lia)). unfold t0. lia. }
  assert (Hdead : forall k, (N <= k <= N + 4)%nat -> 1000 < time_at e k - t0).
  { intros k Hk. pose proof (Hle N k ltac:(lia)). lia. }
  destruct (command_spec e (snd (millis e w))) as [(Hlog2 & Htk2 & Hv2) _].
  set (w2 := snd (startConversion e (snd (millis e w)))) in *.
  cbn [millis snd interact tick log] in Hlog2, Htk2.
  destruct (poll_returns e (tick w) N (N + 4) Hrange Hdead ltac:(lia)
              (N - tick w2) w2 ltac:(lia) ltac:(lia) ltac:(lia))
    as (fuel & ex & w3 & new & Hp & Hlog3 & Hout & Hv3 & Htk3).
  fold t0 in Hp, Hout.
  set (start := [EvTx (S (tick w)) (time_at e (S (tick w))) (_address w) [0x51];
                 EvMillis (tick w) t0]).
  assert (Hlog2' : log w2 = start ++ log w).
  { rewrite Hlog2. destruct w; reflexivity. }
  assert (Hrun : readTempOneShot e fuel w =
                 match ex with
                 | TimedOut => Some (inject_Z (-32768), w3)
                 | Converted =>
                   Some (fst (readTempF e w3), snd (stopConversion e (snd (readTempF e w3))))
                 end).
  { unfold readTempOneShot. unfold millis at 1.
    change (interact (EvMillis (tick w) (time_at e (tick w))) w)
      with (snd (millis e w)).
    destruct (startConversion e (snd (millis e w))) as [[] w2'] eqn:Es.
    subst w2. cbn [snd] in Hp. fold t0. rewrite Hp.
    destruct ex; [| reflexivity].
    unfold bind, ret. destruct (readTempF e w3) as [T w4]. cbn [fst snd].
    destruct (stopConversion e w4) as [[] w5]. reflexivity. }
  destruct ex; unfold poll_outcome in Hout.
  - (* the conversion was seen done *)
    destruct Hout as ((c & older & Hc & Hbit) & Hread).
    destruct (readTempF_range e w3)
      as (HT & Bm & Bl & Hlo & Hhi & newF & HlogF & HcoF & HmrF).
    destruct (command_spec e (snd (readTempF e w3))) as [_ (Hlog5 & _ & Hv5)].
    set (T := fst (readTempF e w3)) in *.
    set (w4 := snd (readTempF e w3)) in *.
    set (w5 := snd (stopConversion e w4)) in *.
    exists fuel, T, w5,
      ((EvTx (tick w4) (time_at e (tick w4)) (_address w4) [0x22] :: newF)
       ++ new ++ start).
    split; [exact Hrun |].
    split; [rewrite Hlog5, HlogF, Hlog3, Hlog2', <- !app_assoc; reflexivity |].
    change (EvTx (tick w4) (time_at e (tick w4)) (_address w4) [0x22] :: newF)
      with ([EvTx (tick w4) (time_at e (tick w4)) (_address w4) [0x22]] ++ newF).
    rewrite <- !app_assoc, !config_observed_app, !millis_readings_app.
    rewrite HcoF, HmrF, Hc. cbn [config_observed millis_readings app start].
    split.
    + intros Hclear. inversion Hclear; subst. congruence.
    + intros _. destruct Hv5 as (_ & Em5 & El5).
      split; [exists w3; reflexivity |].
      split; [rewrite Em5, El5; exact HT |].
      split; [exact Hlo |]. split; [exact Hhi |].
      split.
      * intros Heq. rewrite Heq in Hlo. revert Hlo. cbv. auto.
      * apply Forall_app. split; [exact Hread |].
        repeat constructor. unfold t0. lia.
  - (* the poll timed out *)
    destruct Hout as (Hclear & k & t & rest & earlier & Hnew & Hmr & Hlate & Hearly).
    exists fuel, (inject_Z (-32768)), w3, (new ++ start).
    split; [exact Hrun |].
    split; [rewrite Hlog3, Hlog2', <- app_assoc; reflexivity |].
    rewrite config_observed_app, millis_readings_app.
    cbn [config_observed millis_readings app start]. rewrite app_nil_r.
    split.
    + intros _. split; [reflexivity |].
      exists k, t, (rest ++ start), (earlier ++ [t0]).
      split; [rewrite Hnew; reflexivity |].
      split; [rewrite Hmr; reflexivity |].
      split; [exact Hlate |].
      apply Forall_app. split; [exact Hearly |].
      repeat constructor. unfold t0. lia.
    + intros Hset. exfalso.
      apply Exists_exists in Hset. destruct Hset as (c & Hin & Hbit).
      rewrite Forall_forall in Hclear. rewrite (Hclear c Hin) in Hbit.
      discriminate.
Qed.

(** The fuel only has to be enough: more of it gives the same result. *)
Lemma readTempOneShot_fuel_mono (e : Env) (fuel fuel' : nat) (w : World) :
  (fuel <= fuel')%nat ->
  forall r, readTempOneShot e fuel w = Some r ->
            readTempOneShot e fuel' w = Some r.
Proof.
  intros Hle r. unfold readTempOneShot.
  destruct (millis e w) as [now w1].
  destruct (startConversion e w1) as [[] w2].
  destruct (poll e fuel (to_long now) w2) as [p |] eqn:Ep; [| discriminate].
  rewrite (poll_fuel_mono e (to_long now) fuel fuel' Hle w2 p Ep). auto.
Qed.

Lemma config_observed_all (e : Env) (P : Z -> Prop) (l : list Event) :
  (forall k, P (config_seen e k)) -> Forall P (config_observed e l).
Proof.
  intros HP. induction l as [|ev l IH]; [constructor |].
  destruct ev; cbn [config_observed]; try exact IH.
  destruct (is_config_read _); [constructor; auto | exact IH].
Qed.

Lemma readTempOneShot_outcomes_witness :
  ((forall k, time_at (steady 1 [0x0C]) k <= time_at (steady 1 [0x0C]) (S k)) /\
   (tick idle <= 1001)%nat /\
   1000 < time_at (steady 1 [0x0C]) 1001 - time_at (steady 1 [0x0C]) (tick idle) /\
   time_at (steady 1 [0x0C]) (1001 + 4) - time_at (steady 1 [0x0C]) (tick idle)
   < 2 ^ 31) /\
  exists fuel w',
    readTempOneShot (steady 1 [0x0C]) fuel idle = Some (inject_Z (-32768), w').
Proof.
  assert (H1 : forall k, time_at (steady 1 [0x0C]) k
                         <= time_at (steady 1 [0x0C]) (S k))
    by (intros k; cbn [time_at steady]; lia).
  assert (H2 : (tick idle <= 1001)%nat) by (cbn; lia).
  assert (H3 : 1000 < time_at (steady 1 [0x0C]) 1001
                      - time_at (steady 1 [0x0C]) (tick idle))
    by (cbn [time_at steady tick idle DS1631]; lia).
  assert (H4 : time_at (steady 1 [0x0C]) (1001 + 4)
               - time_at (steady 1 [0x0C]) (tick idle) < 2 ^ 31)
    by (cbn [time_at steady tick idle DS1631]; lia).
  split; [auto |].
  destruct (readTempOneShot_outcomes (steady 1 [0x0C]) idle 1001 H1 H2 H3 H4)
    as (fuel & T & w' & new & Hrun & _ & Hclear & _).
  exists fuel, w'.
  destruct Hclear as [-> _]; [| exact Hrun].
  apply config_observed_all. intros k. reflexivity.
Defined.

(** Once 50 ms have passed since [lastMillis] was taken, the wait inside the
    loop is a single clock read. *)
Lemma busy_wait_once (e : Env) (t0 : Z) (fuel : nat) (w : World) :
  0 <= time_at e (tick w) - t0 < 2 ^ 31 ->
  50 <= time_at e (tick w) - t0 ->
  busy_wait e (S fuel) (to_long (to_ulong t0)) 0 w
  = Some (time_at e (tick w) - t0, snd (millis e w)).
Proof.
  intros Hr H50. cbn [busy_wait]. change (0 <? 50) with true. cbv iota.
  unfold millis at 1. rewrite (elapsed_exact _ _ Hr).
  destruct fuel; cbn [busy_wait];
    destruct (Z.ltb_spec (time_at e (tick w) - t0) 50); try lia; reflexivity.
Qed.

(** C8, the failing case.  A sensor whose conversion is done from the 60th
    interaction on, every interaction taking 1 ms: both one-shot reads read
    the configuration byte at 3, 52, 55, 58 and 61 ms.  Only the first two
    reads are 50 ms apart; after that the reads follow each other at 3 ms. *)
Theorem poll_rereads_without_waiting :
  let e := sensor 1 60 0x0C 0x19 0x80 in
  (exists T w',
     readTempOneShot e 100 idle = Some (T, w') /\
     config_read_times (log w') = [3; 52; 55; 58; 61] /\
     spaced 50 (config_read_times (log w')) = false) /\
  (exists T w',
     readTempOneShotInt e 100 idle = Some (T, w') /\
     config_read_times (log w') = [3; 52; 55; 58; 61] /\
     spaced 50 (config_read_times (log w')) = false).
Proof.
  cbv zeta. split.
  - destruct (readTempOneShot (sensor 1 60 0x0C 0x19 0x80) 100 idle)
      as [[T w']|] eqn:E; [| vm_compute in E; discriminate].
    exists T, w'. split; [reflexivity |].
    assert (Hw : Some (config_read_times (log w')) = Some [3; 52; 55; 58; 61]).
    { change (option_map (fun p => config_read_times (log (snd p))) (Some (T, w'))
              = Some [3; 52; 55; 58; 61]).
      rewrite <- E. vm_compute. reflexivity. }
    injection Hw as ->. split; reflexivity.
  - destruct (readTempOneShotInt (sensor 1 60 0x0C 0x19 0x80) 100 idle)
      as [[T w']|] eqn:E; [| vm_compute in E; discriminate].
    exists T, w'. split; [reflexivity |].
    assert (Hw : Some (config_read_times (log w')) = Some [3; 52; 55; 58; 61]).
    { change (option_map (fun p => config_read_times (log (snd p))) (Some (T, w'))
              = Some [3; 52; 55; 58; 61]).
      rewrite <- E. vm_compute. reflexivity. }
    injection Hw as ->. split; reflexivity.
Qed.

Lemma readTempOneShotInt_eq (e : Env) (fuel : nat) (w : World) :
  readTempOneShotInt e fuel w =
  match poll e fuel (fst (poll_start e w)) (snd (poll_start e w)) with
  | Some (TimedOut, w3) => Some (32768, w3)
  | Some (Converted, w3) =>
    let w4 := snd (readT e w3) in
    Some (word (MSByte w4) (LSByte w4), w4)
  | None => None
  end.
Proof.
  unfold readTempOneShotInt, poll_start.
  destruct (millis e w) as [now w1].
  destruct (startConversion e w1) as [[] w2]. cbn [fst snd].
  destruct (poll e fuel (to_long now) w2) as [[[] w3]|]; try reflexivity.
  unfold bind, gets, ret. destruct (readT e w3) as [[] w4]. cbn [snd].
  unfold word, to_u16. rewrite Z.mod_mod by lia. reflexivity.
Qed.

(** C10.  [readTempOneShotInt] returns a [uint16_t]: on the timeout path the
    caller gets 32768, which is -32768 modulo 2^16; on the success path the
    caller gets [word(MSByte, LSByte)], which is 32768 as well when the bytes
    read are 0x80, 0x00.  Both happen: a sensor that never finishes and a
    sensor at 0x80, 0x00 give the same return value. *)
Theorem readTempOneShotInt_sentinel_collides (e : Env) (fuel : nat) (w : World) :
  to_u16 (-32768) = 32768 /\ word 0x80 0x00 = 32768 /\
  match poll e fuel (fst (poll_start e w)) (snd (poll_start e w)) with
  | Some (TimedOut, w3) => readTempOneShotInt e fuel w = Some (32768, w3)
  | Some (Converted, w3) =>
    let w4 := snd (readT e w3) in
    readTempOneShotInt e fuel w = Some (word (MSByte w4) (LSByte w4), w4)
  | None => readTempOneShotInt e fuel w = None
  end /\
  (let never := sensor 20 1000 0x0C 0x80 0x00 in
   exists w',
     poll never 100 (fst (poll_start never idle)) (snd (poll_start never idle))
     = Some (TimedOut, w') /\
     readTempOneShotInt never 100 idle = Some (32768, w')) /\
  (let cold := sensor 1 60 0x0C 0x80 0x00 in
   exists w3 w',
     poll cold 100 (fst (poll_start cold idle)) (snd (poll_start cold idle))
     = Some (Converted, w3) /\
     readTempOneShotInt cold 100 idle = Some (32768, w') /\
     MSByte w' = 0x80 /\ LSByte w' = 0x00).
Proof.
  split; [reflexivity |]. split; [reflexivity |].
  split.
  { rewrite readTempOneShotInt_eq.
    destruct (poll e fuel _ _) as [[[] w3]|]; reflexivity. }
  split; cbv zeta.
  - rewrite readTempOneShotInt_eq.
    destruct (poll (sensor 20 1000 0x0C 0x80 0x00) 100 _ _) as [[ex w3]|] eqn:E;
      [| vm_compute in E; discriminate].
    destruct ex; [exfalso | exists w3; split; reflexivity].
    apply (f_equal (option_map fst)) in E. vm_compute in E. discriminate.
  - rewrite readTempOneShotInt_eq.
    destruct (poll (sensor 1 60 0x0C 0x80 0x00) 100 _ _) as [[ex w3]|] eqn:E;
      [| vm_compute in E; discriminate].
    destruct ex; [| exfalso; apply (f_equal (option_map fst)) in E;
                    vm_compute in E; discriminate].
    exists w3, (snd (readT (sensor 1 60 0x0C 0x80 0x00) w3)).
    split; [reflexivity |].
    destruct (readTemperature_spec (sensor 1 60 0x0C 0x80 0x00) 0xAA w3)
      as (Hm & Hl & _).
    fold (readT (sensor 1 60 0x0C 0x80 0x00)) in Hm, Hl.
    cbv zeta. rewrite Hm, Hl. repeat split.
Qed.

(** ** The rational codec against IEEE 754 arithmetic *)

(** X16.  On every raw word, decoding in IEEE arithmetic, with [double]
    either binary32 or binary64, gives a finite float whose value is the
    rational the model computes: the float arithmetic of [byteToFloat] never
    rounds. *)
Lemma decode_agrees_with_IEEE (D : IEEE.format) (m l : Z) :
  D = IEEE.binary32 \/ D = IEEE.binary64 ->
  0 <= m < 256 -> 0 <= l < 256 ->
  exists q : Q,
    IEEE.value (IEEE.byteToFloat D m l) = Some q /\
    (q == fst (byteToFloat (holding m l)))%Q.
Proof.
  intros HD Hm Hl.
  assert (Hall : forallb (fun a => forallb (decode_agrees D a) all_nibbles)
                         all_bytes = true)
    by (destruct HD as [-> | ->]; vm_compute; reflexivity).
  pose proof (byte_cases _ Hall m Hm) as Hrow. cbv beta in Hrow.
  rewrite forallb_forall in Hrow.
  pose proof (nibble_range l Hl) as Hn.
  assert (Hin : In (Z.shiftr l 4) all_nibbles).
  { unfold all_nibbles.
    replace (Z.shiftr l 4) with (Z.of_nat (Z.to_nat (Z.shiftr l 4))) by lia.
    apply in_map, in_seq. lia. }
  specialize (Hrow _ Hin). unfold decode_agrees in Hrow.
  (* both decodes look at the high nibble of the low byte only *)
  assert (Hhigh : Z.shiftr (Z.shiftl (Z.shiftr l 4) 4) 4 = Z.shiftr l 4).
  { rewrite Z.shiftr_shiftl_l, Z.sub_diag by lia. apply Z.shiftl_0_r. }
  assert (Hlow : 0 <= Z.shiftl (Z.shiftr l 4) 4 < 256).
  { rewrite Z.shiftl_mul_pow2 by lia. change (2 ^ 4) with 16. lia. }
  assert (Eieee : IEEE.byteToFloat D m (Z.shiftl (Z.shiftr l 4) 4)
                  = IEEE.byteToFloat D m l)
    by (unfold IEEE.byteToFloat; rewrite Hhigh; reflexivity).
  assert (Eq : fst (byteToFloat (holding m (Z.shiftl (Z.shiftr l 4) 4)))
               = fst (byteToFloat (holding m l))).
  { rewrite !byteToFloat_whole by assumption.
    cbn [holding set_LSByte set_MSByte idle DS1631 MSByte LSByte].
    rewrite Hhigh. reflexivity. }
  rewrite Eieee, Eq in Hrow.
  destruct (IEEE.value (IEEE.byteToFloat D m l)) as [q |]; [| discriminate].
  exists q. split; [reflexivity |]. apply Qeq_bool_iff, Hrow.
Qed.

(** X17.  On every multiple of 1/16 from -128 up to 128, which covers every
    temperature the sensor reports, encoding in IEEE arithmetic, with
    [double] either binary32 or binary64, stores the bytes the model
    stores. *)
Lemma encode_agrees_with_IEEE (D : IEEE.format) (k : Z) :
  D = IEEE.binary32 \/ D = IEEE.binary64 ->
  -2048 <= k < 2048 ->
  exists (m l : Z) (w : World),
    IEEE.floatToByte D (IEEE.of_scaled IEEE.binary32 k (-4)) = Some (m, l) /\
    floatToByte (k # 16) idle = Some (tt, w) /\
    MSByte w = m /\ LSByte w = l.
Proof.
  intros HD Hk.
  assert (Hall : forallb (encode_agrees D) sixteenths_grid = true)
    by (destruct HD as [-> | ->]; vm_compute; reflexivity).
  rewrite forallb_forall in Hall.
  assert (Hin : In k sixteenths_grid).
  { unfold sixteenths_grid.
    replace k with (Z.of_nat (Z.to_nat (k + 2048)) - 2048) by lia.
    apply (in_map (fun n => Z.of_nat n - 2048)), in_seq. lia. }
  specialize (Hall k Hin). unfold encode_agrees in Hall.
  destruct (IEEE.floatToByte D _) as [[m l] |]; [| discriminate].
  destruct (floatToByte (k # 16) idle) as [[[] w] |]; [| discriminate].
  apply andb_prop in Hall. destruct Hall as [H1 H2].
  apply Z.eqb_eq in H1, H2. exists m, l, w. auto.
Qed.

(** * Further properties of the driver *)

(** ** The configuration setters *)

Lemma writeConfig_vars (e : Env) (c : Z) (w : World) :
  same_vars w (snd (writeConfig e c w)).
Proof. destruct w. repeat split. Qed.

(** A setter that reads the configuration byte [c] and writes [c'] back:
    what is then on the bus, and what it leaves alone. *)
Lemma read_modify_write (e : Env) (g : Z -> Z) (w : World) :
  let c := fst (readConfig e w) in
  let w' := snd ((config <- readConfig e ;; writeConfig e (g config)) w) in
  config_written (log w') = Some (to_u8 (g c)) /\
  written (log w')
  = [0x51] :: [0xAC; to_u8 (g c)] :: [0x22] :: [0xAC] :: written (log w) /\
  same_vars w w'.
Proof.
  cbv zeta. unfold bind.
  destruct (readConfig_spec e w) as (_ & Hlog & _ & Hv).
  destruct (readConfig e w) as [c w0]. cbn [fst snd] in *.
  destruct (writeConfig_log e (g c) w0) as [Hw Hc].
  rewrite Hc, Hw, Hlog, to_u8_idem. cbn [written].
  split; [reflexivity |]. split; [reflexivity |].
  exact (same_vars_trans _ _ _ Hv (writeConfig_vars e (g c) w0)).
Qed.

Lemma set_bit_byte (c : Z) (i : Z) :
  0 <= c < 256 -> i = 0 \/ i = 1 ->
  let mask := Z.shiftl 1 i in
  (to_u8 (Z.lor c mask) = Z.lor c mask /\
   Z.testbit (Z.lor c mask) i = true /\
   Z.land (Z.lor c mask) (0xFF - mask) = Z.land c (0xFF - mask)) /\
  (to_u8 (Z.land c (Z.lnot mask)) = Z.land c (Z.lnot mask) /\
   Z.testbit (Z.land c (Z.lnot mask)) i = false /\
   Z.land (Z.land c (Z.lnot mask)) (0xFF - mask) = Z.land c (0xFF - mask)).
Proof.
  intros Hc Hi.
  pose proof (byte_cases
    (fun a => forallb (fun j =>
       let mask := Z.shiftl 1 j in
       (to_u8 (Z.lor a mask) =? Z.lor a mask) &&
       Z.testbit (Z.lor a mask) j &&
       (Z.land (Z.lor a mask) (0xFF - mask) =? Z.land a (0xFF - mask)) &&
       (to_u8 (Z.land a (Z.lnot mask)) =? Z.land a (Z.lnot mask)) &&
       negb (Z.testbit (Z.land a (Z.lnot mask)) j) &&
       (Z.land (Z.land a (Z.lnot mask)) (0xFF - mask) =? Z.land a (0xFF - mask)))
       [0; 1])
    ltac:(vm_compute; reflexivity) c Hc) as H.
  cbv beta in H. rewrite forallb_forall in H.
  assert (Hin : In i [0; 1]) by (cbn; lia).
  specialize (H i Hin). cbv zeta in H.
  repeat (apply andb_prop in H; destruct H as [H ?]).
  repeat match goal with
         | E : (_ =? _) = true |- _ => apply Z.eqb_eq in E
         | E : negb _ = true |- _ => apply negb_true_iff in E
         end.
  cbv zeta. auto 10.
Qed.

(** X1.  [setActiveHigh(b)] writes the configuration byte that was read back
    with bit 1 equal to [b] and every other bit as it was; on the bus this is
    the register read, stop, the register write and start, in this order, and
    the class variables are not touched. *)
Theorem setActiveHigh_sets_bit1 (e : Env) (b : bool) (w : World) :
  let c := fst (readConfig e w) in
  let w' := snd (setActiveHigh e b w) in
  exists c' : Z,
    config_written (log w') = Some c' /\
    0 <= c' < 256 /\
    Z.testbit c' 1 = b /\
    Z.land c' 0xFD = Z.land c 0xFD /\
    written (log w')
    = [0x51] :: [0xAC; c'] :: [0x22] :: [0xAC] :: written (log w) /\
    same_vars w w'.
Proof.
  intros c w'.
  assert (Hc : 0 <= c < 256).
  { unfold c. destruct (readConfig_spec e w) as [-> _]. apply config_seen_range. }
  destruct (set_bit_byte c 1 Hc (or_intror eq_refl)) as [(S1 & S2 & S3) (C1 & C2 & C3)].
  cbv zeta in *. change (0xFF - Z.shiftl 1 1) with 0xFD in *.
  destruct b.
  - destruct (read_modify_write e (fun x => Z.lor x (Z.shiftl 1 1)) w)
      as (H1 & H2 & H3).
    fold c in H1, H2. rewrite S1 in H1, H2.
    exists (Z.lor c (Z.shiftl 1 1)).
    split; [exact H1 |]. split; [rewrite <- S1; apply to_u8_range |]. auto.
  - destruct (read_modify_write e (fun x => Z.land x (Z.lnot (Z.shiftl 1 1))) w)
      as (H1 & H2 & H3).
    fold c in H1, H2. rewrite C1 in H1, H2.
    exists (Z.land c (Z.lnot (Z.shiftl 1 1))).
    split; [exact H1 |]. split; [rewrite <- C1; apply to_u8_range |]. auto.
Qed.

(** X2.  [setOneShotMode(b)] does the same with bit 0. *)
Theorem setOneShotMode_sets_bit0 (e : Env) (b : bool) (w : World) :
  let c := fst (readConfig e w) in
  let w' := snd (setOneShotMode e b w) in
  exists c' : Z,
    config_written (log w') = Some c' /\
    0 <= c' < 256 /\
    Z.testbit c' 0 = b /\
    Z.land c' 0xFE = Z.land c 0xFE /\
    written (log w')
    = [0x51] :: [0xAC; c'] :: [0x22] :: [0xAC] :: written (log w) /\
    same_vars w w'.
Proof.
  intros c w'.
  assert (Hc : 0 <= c < 256).
  { unfold c. destruct (readConfig_spec e w) as [-> _]. apply config_seen_range. }
  destruct (set_bit_byte c 0 Hc (or_introl eq_refl)) as [(S1 & S2 & S3) (C1 & C2 & C3)].
  cbv zeta in *. change (0xFF - Z.shiftl 1 0) with 0xFE in *.
  destruct b.
  - destruct (read_modify_write e (fun x => Z.lor x (Z.shiftl 1 0)) w)
      as (H1 & H2 & H3).
    fold c in H1, H2. rewrite S1 in H1, H2.
    exists (Z.lor c (Z.shiftl 1 0)).
    split; [exact H1 |]. split; [rewrite <- S1; apply to_u8_range |]. auto.
  - destruct (read_modify_write e (fun x => Z.land x (Z.lnot (Z.shiftl 1 0))) w)
      as (H1 & H2 & H3).
    fold c in H1, H2. rewrite C1 in H1, H2.
    exists (Z.land c (Z.lnot (Z.shiftl 1 0))).
    split; [exact H1 |]. split; [rewrite <- C1; apply to_u8_range |]. auto.
Qed.




Lemma polarity_mode_bits (c : Z) (b b' : bool) :
  0 <= c < 256 ->
  let c1 := if b then Z.lor c (Z.shiftl 1 1)
            else Z.land c (Z.lnot (Z.shiftl 1 1)) in
  let c2 := if b' then Z.lor c1 (Z.shiftl 1 0)
            else Z.land c1 (Z.lnot (Z.shiftl 1 0)) in
  to_u8 c1 = c1 /\ to_u8 c2 = c2 /\
  Z.testbit c2 1 = b /\ Z.testbit c2 0 = b' /\
  Z.land c2 0xFC = Z.land c 0xFC.
Proof.
  intros Hc.
  pose proof (byte_cases
    (fun a => forallb (fun p : bool * bool =>
       let (x, y) := p in
       let a1 := if x then Z.lor a (Z.shiftl 1 1)
                 else Z.land a (Z.lnot (Z.shiftl 1 1)) in
       let a2 := if y then Z.lor a1 (Z.shiftl 1 0)
                 else Z.land a1 (Z.lnot (Z.shiftl 1 0)) in
       (to_u8 a1 =? a1) && (to_u8 a2 =? a2) &&
       Bool.eqb (Z.testbit a2 1) x && Bool.eqb (Z.testbit a2 0) y &&
       (Z.land a2 0xFC =? Z.land a 0xFC))
       [(true, true); (true, false); (false, true); (false, false)])
    ltac:(vm_compute; reflexivity) c Hc) as H.
  cbv beta in H. rewrite forallb_forall in H.
  assert (Hin : In (b, b') [(true, true); (true, false); (false, true);
                            (false, false)])
    by (destruct b, b'; cbn; auto).
  specialize (H _ Hin). cbv beta iota zeta in H.
  repeat (apply andb_prop in H; destruct H as [H ?]).
  repeat match goal with
         | E : (_ =? _) = true |- _ => apply Z.eqb_eq in E
         | E : Bool.eqb _ _ = true |- _ => apply Bool.eqb_prop in E
         end.
  cbv zeta. auto.
Qed.

(** X4.  The setters compose: when the device answers the next register
    read with the byte [setActiveHigh(b)] has just written, a following
    [setOneShotMode(b')] writes a byte with bit 1 equal to [b], bit 0 equal
    to [b'] and bits 2-7 as they were read before the first call. *)
Theorem setActiveHigh_then_setOneShotMode
  (e : Env) (b b' : bool) (w : World) :
  let c := fst (readConfig e w) in
  let w1 := snd (setActiveHigh e b w) in
  let w2 := snd (setOneShotMode e b' w1) in
  (forall c1, config_written (log w1) = Some c1 ->
              reply e (S (tick w1)) [0xAC] = [c1]) ->
  exists c2 : Z,
    config_written (log w2) = Some c2 /\
    Z.testbit c2 1 = b /\ Z.testbit c2 0 = b' /\
    Z.land c2 0xFC = Z.land c 0xFC.
Proof.
  intros c w1 w2 Hecho.
  assert (Hc : 0 <= c < 256).
  { unfold c. destruct (readConfig_spec e w) as [-> _]. apply config_seen_range. }
  destruct (polarity_mode_bits c b b' Hc) as (U1 & U2 & B1 & B0 & Hrest).
  cbv zeta in *.
  set (g1 := fun x => if b then Z.lor x (Z.shiftl 1 1)
                      else Z.land x (Z.lnot (Z.shiftl 1 1))).
  set (g0 := fun x => if b' then Z.lor x (Z.shiftl 1 0)
                      else Z.land x (Z.lnot (Z.shiftl 1 0))).
  fold (g1 c) in U1, U2, B1, B0, Hrest. fold (g0 (g1 c)) in U2, B1, B0, Hrest.
  assert (E1 : w1 = snd ((config <- readConfig e ;; writeConfig e (g1 config)) w))
    by (unfold w1, setActiveHigh, g1, bind; destruct (readConfig e w), b; reflexivity).
  assert (E2 : w2 = snd ((config <- readConfig e ;; writeConfig e (g0 config)) w1))
    by (unfold w2, setOneShotMode, g0, bind; destruct (readConfig e w1), b'; reflexivity).
  destruct (read_modify_write e g1 w) as (H1 & _). rewrite <- E1 in H1.
  fold c in H1. rewrite U1 in H1.
  assert (Hread : fst (readConfig e w1) = g1 c).
  { destruct (readConfig_spec e w1) as [-> _]. unfold config_seen.
    rewrite (Hecho _ H1). cbn [map firstn]. rewrite to_u8_idem. exact U1. }
  destruct (read_modify_write e g0 w1) as (H2 & _). rewrite <- E2 in H2.
  rewrite Hread, U2 in H2.
  exists (g0 (g1 c)). auto.
Qed.

Lemma setActiveHigh_then_setOneShotMode_witness :
  (forall c1,
     config_written (log (snd (setActiveHigh (steady 1 [0x8E]) true idle)))
     = Some c1 ->
     reply (steady 1 [0x8E])
           (S (tick (snd (setActiveHigh (steady 1 [0x8E]) true idle)))) [0xAC]
     = [c1]) /\
  exists c2 : Z,
    config_written
      (log (snd (setOneShotMode (steady 1 [0x8E]) false
                   (snd (setActiveHigh (steady 1 [0x8E]) true idle)))))
    = Some c2 /\
    Z.testbit c2 1 = true /\ Z.testbit c2 0 = false.
Proof.
  assert (Hecho : forall c1,
     config_written (log (snd (setActiveHigh (steady 1 [0x8E]) true idle)))
     = Some c1 ->
     reply (steady 1 [0x8E])
           (S (tick (snd (setActiveHigh (steady 1 [0x8E]) true idle)))) [0xAC]
     = [c1]).
  { intros c1 H. vm_compute in H. injection H as <-. reflexivity. }
  split; [exact Hecho |].
  destruct (setActiveHigh_then_setOneShotMode (steady 1 [0x8E]) true false idle
              Hecho) as (c2 & H1 & H2 & H3 & _).
  exists c2. auto.
Defined.

(** ** A slave that sends too little or too much *)

(** X5.  [readConfig] returns the first byte the slave sends and ignores any
    further byte; when the slave sends nothing it returns its uninitialised
    local, so that [conversionDone] then reports whatever bit 7 of that
    leftover is. *)
Theorem readConfig_short_answer (e : Env) (w : World) :
  0 <= fst (readConfig e w) < 256 /\
  (forall b rest,
     reply e (S (tick w)) [0xAC] = b :: rest ->
     fst (readConfig e w) = to_u8 b /\
     fst (conversionDone e w) = Z.testbit (to_u8 b) 7) /\
  (reply e (S (tick w)) [0xAC] = [] ->
   fst (readConfig e w) = to_u8 (junk e (tick w)) /\
   fst (conversionDone e w) = Z.testbit (to_u8 (junk e (tick w))) 7).
Proof.
  destruct (readConfig_spec e w) as (Hc & _).
  rewrite conversionDone_spec. cbn [fst]. rewrite Hc.
  split; [apply config_seen_range |].
  unfold config_seen. split.
  - intros b rest ->. cbn [map firstn]. rewrite to_u8_idem. auto.
  - intros ->. cbn [map firstn pred]. auto.
Qed.

Lemma readConfig_short_answer_witness :
  reply (mkEnv (fun k => Z.of_nat k) (fun _ _ => []) (fun _ => 0x1FF))
        (S (tick idle)) [0xAC] = [] /\
  fst (conversionDone
         (mkEnv (fun k => Z.of_nat k) (fun _ _ => []) (fun _ => 0x1FF)) idle)
  = true.
Proof.
  assert (H : reply (mkEnv (fun k => Z.of_nat k) (fun _ _ => [])
                           (fun _ => 0x1FF)) (S (tick idle)) [0xAC] = [])
    by reflexivity.
  split; [exact H |].
  destruct (readConfig_short_answer
              (mkEnv (fun k => Z.of_nat k) (fun _ _ => []) (fun _ => 0x1FF)) idle)
    as (_ & _ & Hsilent).
  destruct (Hsilent H) as [_ ->]. reflexivity.
Defined.

(** X6.  A temperature read stores 255 for every byte the slave does not
    send.  With a slave that sends nothing, [readTempF] therefore returns
    -0.0625 and [readTempD] returns 0; neither tells the caller that nothing
    was read. *)
Theorem silent_bus_temperature (e : Env) (w : World) :
  (reply e (S (tick w)) [0xAA] = [] ->
   MSByte (snd (readT e w)) = 255 /\ LSByte (snd (readT e w)) = 255 /\
   (fst (readTempF e w) == - (1 # 16))%Q /\
   fst (readTempD e w) = 0) /\
  (forall m, reply e (S (tick w)) [0xAA] = [m] ->
   MSByte (snd (readT e w)) = to_u8 m /\ LSByte (snd (readT e w)) = 255).
Proof.
  destruct (readTemperature_spec e 0xAA w) as (Hm & Hl & _).
  fold (readT e) in Hm, Hl. change (to_u8 (to_u8 0xAA)) with 0xAA in Hm, Hl.
  split.
  - intros Hreply. rewrite Hreply in Hm, Hl. cbn [map firstn nth] in Hm, Hl.
    change (to_u8 (-1)) with 255 in Hm, Hl.
    split; [exact Hm |]. split; [exact Hl |]. split.
    + rewrite readTempF_eq, byteToFloat_whole by (rewrite Hl; lia).
      rewrite Hm, Hl. reflexivity.
    + destruct (readTempD_readT e w) as (_ & _ & ->). cbn [fst].
      rewrite Hm, Hl. reflexivity.
  - intros m Hreply. rewrite Hreply in Hm, Hl. cbn [map firstn nth] in Hm, Hl.
    rewrite to_u8_idem in Hm. change (to_u8 (-1)) with 255 in Hl. auto.
Qed.

Lemma silent_bus_temperature_witness :
  reply (steady 1 []) (S (tick idle)) [0xAA] = [] /\
  (fst (readTempF (steady 1%Z []) idle) == - (1 # 16))%Q /\
  fst (readTempD (steady 1 []) idle) = 0.
Proof.
  assert (H : reply (steady 1 []) (S (tick idle)) [0xAA] = []) by reflexivity.
  split; [exact H |].
  destruct (silent_bus_temperature (steady 1 []) idle) as [Hsilent _].
  destruct (Hsilent H) as (_ & _ & H1 & H2). auto.
Defined.

(** ** The two decodes of one reading *)

Lemma decodeQ4_sixteenths (m l : Z) :
  0 <= m < 256 -> 0 <= l < 256 ->
  decodeQ4 m l
  = 16 * whole m + Z.shiftr l 4
    + (if (0x80 <=? m) && (Z.land l 0x0F =? 0x0F) then 1 else 0) /\
  -2048 <= decodeQ4 m l <= 2047.
Proof.
  intros Hm Hl.
  pose proof (byte_cases
    (fun a => forallb (fun b =>
       (decodeQ4 a b
        =? 16 * whole a + Z.shiftr b 4
           + (if (0x80 <=? a) && (Z.land b 0x0F =? 0x0F) then 1 else 0)) &&
       (-2048 <=? decodeQ4 a b) && (decodeQ4 a b <=? 2047))
       all_bytes)
    ltac:(vm_compute; reflexivity) m Hm) as H.
  cbv beta in H. rewrite forallb_forall in H.
  specialize (H l (in_all_bytes l Hl)).
  apply andb_prop in H. destruct H as [H H3].
  apply andb_prop in H. destruct H as [H1 H2].
  apply Z.eqb_eq in H1. apply Z.leb_le in H2, H3. auto.
Qed.

(** X7.  On the same reading, [readTempD] is 16 times [readTempF], except
    that it is 1 higher when the reading is negative (MSByte >= 0x80) and the
    low nibble of LSByte is 15; the sensor sends that nibble as 0.
    [readTempD] always lies in [-2048, 2047]. *)
Theorem readTempD_is_16_readTempF (e : Env) (w : World) :
  let m := MSByte (snd (readT e w)) in
  let l := LSByte (snd (readT e w)) in
  (inject_Z (fst (readTempD e w))
   == 16 * fst (readTempF e w)
      + inject_Z (if (0x80 <=? m) && (Z.land l 0x0F =? 0x0F) then 1 else 0))%Q /\
  (Z.land l 0x0F = 0 ->
   (inject_Z (fst (readTempD e w)) == 16 * fst (readTempF e w))%Q) /\
  -2048 <= fst (readTempD e w) <= 2047.
Proof.
  intros m l.
  destruct (readTempD_readT e w) as (Bm & Bl & HD). fold m l in Bm, Bl, HD.
  destruct (decodeQ4_sixteenths m l Bm Bl) as [Hq Hrange].
  rewrite HD, readTempF_eq, byteToFloat_whole by exact Bl.
  cbn [fst]. fold m l.
  set (corr := if (0x80 <=? m) && (Z.land l 0x0F =? 0x0F) then 1 else 0) in *.
  assert (Hmain : (inject_Z (decodeQ4 m l)
                   == 16 * (inject_Z (whole m) + inject_Z (Z.shiftr l 4) * 0.0625)
                      + inject_Z corr)%Q).
  { rewrite Hq, Qplus_fraction.
    unfold Qeq, Qplus, Qmult, inject_Z. cbn [Qnum Qden]. lia. }
  split; [exact Hmain |]. split; [| exact Hrange].
  intros Hlow. rewrite Hmain.
  assert (Hc : corr = 0).
  { unfold corr. rewrite Hlow. change (0 =? 0x0F) with false.
    rewrite andb_false_r. reflexivity. }
  rewrite Hc. unfold Qeq, Qplus, Qmult, inject_Z. cbn [Qnum Qden]. lia.
Qed.

Lemma readTempD_is_16_readTempF_witness :
  Z.land (LSByte (snd (readT (steady 1 [0xE6; 0x80]) idle))) 0x0F = 0 /\
  (inject_Z (fst (readTempD (steady 1 [0xE6; 0x80])%Z idle))
   == 16 * fst (readTempF (steady 1 [0xE6; 0x80])%Z idle))%Q.
Proof.
  assert (H : Z.land (LSByte (snd (readT (steady 1 [0xE6; 0x80]) idle))) 0x0F = 0)
    by reflexivity.
  split; [exact H |].
  destruct (readTempD_is_16_readTempF (steady 1 [0xE6; 0x80]) idle)
    as (_ & Hlow & _).
  exact (Hlow H).
Defined.

(** ** More on the codec *)

(** X8.  Whatever float it is given, [floatToByte] leaves a raw word with
    the low nibble of [LSByte] at 0 and both bytes in range, and touches
    nothing but [MSByte] and [LSByte]. *)
Theorem floatToByte_low_nibble (f : Q) (w w1 : World) :
  floatToByte f w = Some (tt, w1) ->
  Z.land (LSByte w1) 0x0F = 0 /\
  0 <= MSByte w1 < 256 /\ 0 <= LSByte w1 < 256 /\
  _address w1 = _address w /\ log w1 = log w /\ tick w1 = tick w.
Proof.
  unfold floatToByte.
  destruct (float_to_int f) as [i |]; [| discriminate].
  destruct (float_to_int _) as [j |]; [| discriminate].
  intros H. injection H as <-.
  destruct w; cbn [set_LSByte set_MSByte LSByte MSByte _address log tick].
  split.
  - pose proof (byte_cases
      (fun a => Z.land (to_u8 (Z.shiftl a 4)) 0x0F =? 0) eq_refl
      (to_u8 j) (to_u8_range j)) as H.
    apply Z.eqb_eq, H.
  - auto 10 using to_u8_range.
Qed.

Lemma floatToByte_low_nibble_witness :
  (exists w1, floatToByte (-12.3) idle = Some (tt, w1)) /\
  forall w1, floatToByte (-12.3) idle = Some (tt, w1) ->
             Z.land (LSByte w1) 0x0F = 0.
Proof.
  split; [eexists; reflexivity |].
  intros w1 H.
  destruct (floatToByte_low_nibble (-12.3) idle w1 H) as [H0 _]. exact H0.
Defined.

(** X9.  [byteToFloat] loses nothing of a raw word but the low nibble of
    [LSByte]: two words that decode to the same value have the same [MSByte]
    and the same high nibble of [LSByte]. *)
Theorem byteToFloat_injective (w w' : World) :
  0 <= MSByte w < 256 -> 0 <= LSByte w < 256 ->
  0 <= MSByte w' < 256 -> 0 <= LSByte w' < 256 ->
  (fst (byteToFloat w) == fst (byteToFloat w'))%Q ->
  MSByte w = MSByte w' /\ Z.shiftr (LSByte w) 4 = Z.shiftr (LSByte w') 4.
Proof.
  intros Hm Hl Hm' Hl'.
  rewrite !byteToFloat_whole, !Qplus_fraction by assumption.
  pose proof (nibble_range _ Hl). pose proof (nibble_range _ Hl').
  unfold Qeq. cbn [Qnum Qden]. unfold whole.
  destruct (Z.leb_spec 128 (MSByte w)), (Z.leb_spec 128 (MSByte w')); lia.
Qed.

Lemma byteToFloat_injective_witness :
  (0 <= MSByte (holding 0x19 0x80) < 256 /\
   0 <= LSByte (holding 0x19 0x80) < 256 /\
   0 <= MSByte (holding 0x19 0x8F) < 256 /\
   0 <= LSByte (holding 0x19 0x8F) < 256 /\
   (fst (byteToFloat (holding 0x19 0x80))
    == fst (byteToFloat (holding 0x19 0x8F)))%Q) /\
  Z.shiftr (LSByte (holding 0x19 0x80)) 4
  = Z.shiftr (LSByte (holding 0x19 0x8F)) 4.
Proof.
  assert (H1 : 0 <= MSByte (holding 0x19 0x80) < 256) by (cbn; lia).
  assert (H2 : 0 <= LSByte (holding 0x19 0x80) < 256) by (cbn; lia).
  assert (H3 : 0 <= MSByte (holding 0x19 0x8F) < 256) by (cbn; lia).
  assert (H4 : 0 <= LSByte (holding 0x19 0x8F) < 256) by (cbn; lia).
  assert (H5 : (fst (byteToFloat (holding 0x19 0x80))
                == fst (byteToFloat (holding 0x19 0x8F)))%Q) by reflexivity.
  split; [auto 10 |].
  destruct (byteToFloat_injective _ _ H1 H2 H3 H4 H5) as [_ H]. exact H.
Defined.

Lemma Qtrunc_nonneg (f : Q) :
  (0 <= f)%Q ->
  0 <= Qtrunc f /\ (inject_Z (Qtrunc f) <= f)%Q /\ (f < inject_Z (Qtrunc f + 1))%Q.
Proof.
  destruct f as [a b]. unfold Qle, Qlt, Qtrunc, inject_Z. cbn [Qnum Qden].
  intros Ha.
  destruct (quot_bounds a (Z.pos b) ltac:(lia)) as (E & Hp & _).
  destruct (Hp ltac:(lia)) as [Hr Hq].
  split; [exact Hq |]. split; nia.
Qed.

(** X10.  For a float [f] in [0, 128), encoding and decoding gives [f]
    truncated to a multiple of 1/16: the result is n/16 for an integer n, it
    is at most [f], and [f] is less than 1/16 above it.  So the round trip is
    exact on every non-negative multiple of 1/16 below 128. *)
Theorem nonneg_round_trip_truncates (f : Q) (w : World) :
  (0 <= f)%Q -> (f < 128)%Q ->
  exists (r : Q) (n : Z),
    round_trip f w = Some r /\
    (r == n # 16)%Q /\ 0 <= n < 2048 /\
    (r <= f)%Q /\ (f < r + (1 # 16))%Q /\
    (forall k : Z, (f == k # 16)%Q -> (r == f)%Q).
Proof.
  intros H0 H128.
  destruct (Qtrunc_nonneg f H0) as (Ht0 & Htf & Hft).
  assert (Ht : Qtrunc f <= 127).
  { assert (Hlt : (inject_Z (Qtrunc f) < 128)%Q)
      by (eapply Qle_lt_trans; eassumption).
    revert Hlt. unfold Qlt, inject_Z. cbn [Qnum Qden]. lia. }
  destruct (frac16_bounds f) as (Hj & _ & Hjpos). specialize (Hjpos H0).
  exists (inject_Z (whole (to_u8 (Qtrunc f)))
          + inject_Z (frac16 f mod 16) * 0.0625)%Q,
         (16 * Qtrunc f + frac16 f).
  split; [apply round_trip_eq; unfold INT_MIN, INT_MAX; lia |].
  rewrite whole_to_u8, Z.mod_small, Qplus_fraction by lia.
  split; [reflexivity |]. split; [lia |].
  (* the integer facts behind the two bounds *)
  assert (Hint : 0 <= 16 * Qnum f - (16 * Qtrunc f + frac16 f) * Zpos (Qden f)
                 < Zpos (Qden f)).
  { rewrite frac16_eq. unfold Qtrunc. destruct f as [a b]. cbn [Qnum Qden].
    destruct (quot_bounds a (Z.pos b) ltac:(lia)) as (E & Hp & _).
    assert (Ha : 0 <= a) by (revert H0; unfold Qle; cbn; lia).
    destruct (Hp Ha) as [Hr _].
    destruct (quot_bounds (16 * Z.rem a (Z.pos b)) (Z.pos b) ltac:(lia))
      as (E' & Hp' & _).
    destruct (Hp' ltac:(lia)) as [Hr' _]. nia. }
  split; [| split].
  - unfold Qle. cbn [Qnum Qden]. lia.
  - unfold Qlt, Qplus. cbn [Qnum Qden]. lia.
  - intros k Hk. clear Hint.
    rewrite (Qtrunc_comp _ _ Hk), (frac16_comp _ _ Hk), frac16_eq.
    unfold Qtrunc. cbn [Qnum Qden].
    rewrite (Z.mul_comm 16 (Z.rem k 16)), Z.quot_mul by lia.
    rewrite Qplus_fraction, <- (Z.quot_rem' k 16). symmetry. exact Hk.
Qed.

Lemma nonneg_round_trip_truncates_witness :
  ((0 <= 25.3)%Q /\ (25.3 < 128)%Q) /\
  exists r : Q, round_trip 25.3 idle = Some r /\ (r == 25.25)%Q.
Proof.
  assert (H0 : (0 <= 25.3)%Q) by (cbv; discriminate).
  assert (H1 : (25.3 < 128)%Q) by reflexivity.
  split; [split; assumption |].
  destruct (nonneg_round_trip_truncates 25.3 idle H0 H1)
    as (r & n & Hr & _).
  exists r. split; [exact Hr |].
  assert (E : round_trip 25.3 idle = Some (inject_Z 25 + inject_Z 4 * 0.0625)%Q)
    by reflexivity.
  rewrite E in Hr. injection Hr as <-. reflexivity.
Defined.

(** X11.  A negative multiple of 1/16 that is not a whole number, above
    -129, comes back from encoding and decoding exactly one degree too
    high: -10.5 is stored as 0xF6, 0x80 and read back as -9.5. *)
Theorem negative_sixteenth_round_trip (f : Q) (k : Z) (w : World) :
  (f == k # 16)%Q -> -2064 < k < 0 -> k mod 16 <> 0 ->
  exists r : Q, round_trip f w = Some r /\ (r == f + 1)%Q.
Proof.
  intros Hk Hrange Hfrac.
  pose proof (Z.quot_rem' k 16) as E.
  destruct (quot_bounds k 16 ltac:(lia)) as (_ & _ & Hn).
  destruct (Hn ltac:(lia)) as [Hr Hq].
  assert (Hj : Z.rem k 16 <> 0).
  { intros E0. apply Hfrac. rewrite E0 in E.
    rewrite E, Z.add_0_r, Z.mul_comm. apply Z.mod_mul. lia. }
  assert (Et : Qtrunc f = k ÷ 16) by (rewrite (Qtrunc_comp _ _ Hk); reflexivity).
  assert (Ej : frac16 f = Z.rem k 16).
  { rewrite (frac16_comp _ _ Hk), frac16_eq. cbn [Qnum Qden].
    rewrite (Z.mul_comm 16 (Z.rem k 16)). apply Z.quot_mul. lia. }
  eexists. split.
  - apply round_trip_eq. rewrite Et. unfold INT_MIN, INT_MAX. lia.
  - rewrite Et, Ej, whole_to_u8 by lia.
    replace (Z.rem k 16 mod 16) with (Z.rem k 16 + 16)
      by (apply Z.mod_unique with (q := -1); lia).
    rewrite Qplus_fraction, Hk.
    unfold Qeq, Qplus. cbn [Qnum Qden]. lia.
Qed.

Lemma negative_sixteenth_round_trip_witness :
  ((-10.5 == (-168) # 16)%Q /\ -2064 < -168 < 0 /\ (-168) mod 16 <> 0) /\
  exists (r : Q) (w1 : World),
    floatToByte (-10.5) idle = Some (tt, w1) /\
    MSByte w1 = 0xF6 /\ LSByte w1 = 0x80 /\
    round_trip (-10.5) idle = Some r /\ (r == -9.5)%Q.
Proof.
  assert (H1 : (-10.5 == (-168) # 16)%Q) by reflexivity.
  assert (H2 : -2064 < -168 < 0) by lia.
  assert (H3 : (-168) mod 16 <> 0) by (cbv; discriminate).
  split; [auto |].
  destruct (negative_sixteenth_round_trip (-10.5) (-168) idle H1 H2 H3)
    as (r & Hr & Heq).
  exists r. eexists. split; [reflexivity |].
  split; [reflexivity |]. split; [reflexivity |]. split; [exact Hr |].
  rewrite Heq. reflexivity.
Defined.

(** ** Writing and reading back a threshold *)

Lemma writeTemperature_spec (e : Env) (f : Q) (command : Z) (w : World) :
  INT_MIN <= Qtrunc f <= INT_MAX ->
  exists w1 : World,
    writeTemperature e f command w = Some (tt, w1) /\
    MSByte w1 = to_u8 (Qtrunc f) /\
    LSByte w1 = to_u8 (Z.shiftl (to_u8 (frac16 f)) 4) /\
    written (log w1)
    = [0x51] :: [to_u8 (to_u8 command); MSByte w1; LSByte w1] :: [0x22]
      :: written (log w) /\
    _address w1 = _address w.
Proof.
  intros Hin. unfold writeTemperature. rewrite (floatToByte_eq f w Hin).
  set (m := to_u8 (Qtrunc f)). set (l := to_u8 (Z.shiftl (to_u8 (frac16 f)) 4)).
  set (l0 := to_u8 (frac16 f)). set (c := to_u8 command).
  match goal with
  | |- exists w1, Some (?k ?x) = _ /\ _ => exists (snd (k x)); split;
       [destruct (k x) as [[] w1]; reflexivity |]
  end.
  destruct w.
  cbv [bind gets modify ret stopConversion startConversion
       Wire_beginTransmission Wire_write Wire_endTransmission interact
       set_tx set_LSByte set_MSByte snd fst MSByte LSByte _address
       txAddress txBuffer rxBuffer tick log written app].
  unfold m, l. rewrite !to_u8_idem. auto.
Qed.

Lemma read_back (e : Env) (f : Q) (command : Z) (w w1 : World) :
  INT_MIN <= Qtrunc f <= INT_MAX ->
  MSByte w1 = to_u8 (Qtrunc f) ->
  LSByte w1 = to_u8 (Z.shiftl (to_u8 (frac16 f)) 4) ->
  reply e (S (tick w1)) [to_u8 (to_u8 command)] = [MSByte w1; LSByte w1] ->
  round_trip f w
  = Some (fst ((readTemperature e command ;; byteToFloat) w1)).
Proof.
  intros Hin Hm Hl Hreply.
  destruct (readTemperature_spec e command w1) as (Em & El & _).
  rewrite Hreply in Em, El. cbn [map firstn nth] in Em, El.
  rewrite !to_u8_idem, Hm, to_u8_idem in Em.
  rewrite !to_u8_idem, Hl, to_u8_idem in El.
  unfold bind. destruct (readTemperature e command w1) as [[] w2].
  cbn [snd] in Em, El.
  unfold round_trip. rewrite (floatToByte_eq f w Hin).
  rewrite !byteToFloat_whole
    by (first [rewrite El | destruct w; cbn [set_LSByte LSByte]];
        apply to_u8_range).
  rewrite Em, El. destruct w; reflexivity.
Qed.

(** X12.  [writeTH(f)] sends stop, then the opcode 0xA1 with the two bytes
    [floatToByte] stored for [f], then start.  When the device answers the
    next read of that register with these two bytes, [readTH] returns [f]
    after one encode-decode round trip.  The same holds for [writeTL] and
    [readTL] with the opcode 0xA2. *)
Theorem threshold_write_then_read (e : Env) (f : Q) (w : World) :
  INT_MIN <= Qtrunc f <= INT_MAX ->
  (exists w1 : World,
     writeTH e f w = Some (tt, w1) /\
     written (log w1)
     = [0x51] :: [0xA1; MSByte w1; LSByte w1] :: [0x22] :: written (log w) /\
     (reply e (S (tick w1)) [0xA1] = [MSByte w1; LSByte w1] ->
      round_trip f w = Some (fst (readTH e w1)))) /\
  (exists w1 : World,
     writeTL e f w = Some (tt, w1) /\
     written (log w1)
     = [0x51] :: [0xA2; MSByte w1; LSByte w1] :: [0x22] :: written (log w) /\
     (reply e (S (tick w1)) [0xA2] = [MSByte w1; LSByte w1] ->
      round_trip f w = Some (fst (readTL e w1)))).
Proof.
  intros Hin. split.
  - destruct (writeTemperature_spec e f 0xA1 w Hin)
      as (w1 & Hw & Hm & Hl & Hlog & _).
    exists w1. split; [exact Hw |]. split; [exact Hlog |].
    intros Hreply. exact (read_back e f 0xA1 w w1 Hin Hm Hl Hreply).
  - destruct (writeTemperature_spec e f 0xA2 w Hin)
      as (w1 & Hw & Hm & Hl & Hlog & _).
    exists w1. split; [exact Hw |]. split; [exact Hlog |].
    intros Hreply. exact (read_back e f 0xA2 w w1 Hin Hm Hl Hreply).
Qed.

Lemma threshold_write_then_read_witness :
  INT_MIN <= Qtrunc 30.5 <= INT_MAX /\
  exists w1 : World,
    writeTH (steady 1 [0x1E; 0x80]) 30.5 idle = Some (tt, w1) /\
    written (log w1) = [[0x51]; [0xA1; 0x1E; 0x80]; [0x22]] /\
    (fst (readTH (steady 1 [0x1E; 0x80])%Z w1) == 30.5)%Q.
Proof.
  assert (Hin : INT_MIN <= Qtrunc 30.5 <= INT_MAX) by (vm_compute; split; discriminate).
  split; [exact Hin |].
  destruct (threshold_write_then_read (steady 1 [0x1E; 0x80]) 30.5 idle Hin)
    as [(w1 & Hw & Hlog & Hback) _].
  assert (Hbytes : MSByte w1 = 0x1E /\ LSByte w1 = 0x80 /\ written (log idle) = []).
  { vm_compute in Hw. injection Hw as <-. repeat split. }
  destruct Hbytes as (Em & El & E0).
  exists w1. split; [exact Hw |].
  split; [rewrite Hlog, Em, El, E0; reflexivity |].
  rewrite Em, El in Hback.
  specialize (Hback eq_refl).
  assert (Ert : round_trip 30.5 idle = Some (inject_Z 30 + inject_Z 8 * 0.0625)%Q)
    by reflexivity.
  assert (Hv : fst (readTH (steady 1 [0x1E; 0x80]) w1)
               = (inject_Z 30 + inject_Z 8 * 0.0625)%Q) by congruence.
  rewrite Hv. reflexivity.
Defined.

(** ** The integer one-shot read *)

Lemma word_bytes (m l : Z) :
  0 <= m < 256 -> 0 <= l < 256 ->
  word m l = 256 * m + l /\ 0 <= word m l < 65536.
Proof.
  intros Hm Hl.
  pose proof (byte_cases
    (fun a => forallb (fun b => (word a b =? 256 * a + b)) all_bytes)
    ltac:(vm_compute; reflexivity) m Hm) as H.
  cbv beta in H. rewrite forallb_forall in H.
  specialize (H l (in_all_bytes l Hl)). apply Z.eqb_eq in H.
  rewrite H. lia.
Qed.

(** X13.  Under the clock assumptions of the float variant,
    [readTempOneShotInt] returns.  If no configuration byte it read had
    bit 7 set, it returns 32768 right after the first clock read that shows
    more than 1000 ms elapsed, and [MSByte] and [LSByte] are what they were.
    If a configuration byte it read had bit 7 set, it returns
    256 * MSByte + LSByte of the reading it fetched next, and that two-byte
    read is the last thing it does on the bus. *)
Theorem readTempOneShotInt_outcomes (e : Env) (w : World) (N : nat) :
  let t0 := time_at e (tick w) in
  (forall k, time_at e k <= time_at e (S k)) ->
  (tick w <= N)%nat -> 1000 < time_at e N - t0 ->
  time_at e (N + 4) - t0 < 2 ^ 31 ->
  exists fuel T w' new,
    readTempOneShotInt e fuel w = Some (T, w') /\
    log w' = new ++ log w /\
    (Forall (fun c => Z.testbit c 7 = false) (config_observed e new) ->
     T = 32768 /\ MSByte w' = MSByte w /\ LSByte w' = LSByte w /\
     exists k t rest earlier,
       new = EvMillis k t :: rest /\
       millis_readings new = t :: earlier /\
       1000 < t - t0 /\
       Forall (fun t' => t' - t0 <= 1000) earlier) /\
    (Exists (fun c => Z.testbit c 7 = true) (config_observed e new) ->
     T = 256 * MSByte w' + LSByte w' /\
     0 <= MSByte w' < 256 /\ 0 <= LSByte w' < 256 /\
     (exists k t bytes rest,
        new = EvRx k t (_address w) 2 bytes :: rest /\
        MSByte w' = to_u8 (nth 0 bytes (-1)) /\
        LSByte w' = to_u8 (nth 1 bytes (-1))) /\
     Forall (fun t' => t' - t0 <= 1000) (millis_readings new)).
Proof.
  intros t0 Hmono HN Hpast Hbound.
  assert (Hle : forall j k, (j <= k)%nat -> time_at e j <= time_at e k).
  { intros j k Hjk. induction Hjk as [|k Hjk IH]; [lia |].
    pose proof (Hmono k). lia. }
  assert (Hrange : forall k, (tick w <= k <= N + 4)%nat ->
                             0 <= time_at e k - t0 < 2 ^ 31).
  { intros k Hk. pose proof (Hle (tick w) k ltac:(lia)).
    pose proof (Hle k (N + 4)%nat ltac:(lia)). unfold t0. lia. }
  assert (Hdead : forall k, (N <= k <= N + 4)%nat -> 1000 < time_at e k - t0).
  { intros k Hk. pose proof (Hle N k ltac:(lia)). lia. }
  destruct (command_spec e (snd (millis e w))) as [(Hlog2 & Htk2 & Hv2) _].
  assert (Elm : fst (poll_start e w) = to_long (to_ulong t0)) by reflexivity.
  assert (Ew2 : snd (poll_start e w) = snd (startConversion e (snd (millis e w))))
    by reflexivity.
  set (w2 := snd (poll_start e w)) in *. rewrite <- Ew2 in Hlog2, Htk2, Hv2.
  cbn [millis snd interact tick log] in Hlog2, Htk2.
  destruct (poll_returns e (tick w) N (N + 4) Hrange Hdead ltac:(lia)
              (N - tick w2) w2 ltac:(lia) ltac:(lia) ltac:(lia))
    as (fuel & ex & w3 & new & Hp & Hlog3 & Hout & Hv3 & Htk3).
  fold t0 in Hp, Hout.
  set (start := [EvTx (S (tick w)) (time_at e (S (tick w))) (_address w) [0x51];
                 EvMillis (tick w) t0]).
  assert (Hlog2' : log w2 = start ++ log w).
  { rewrite Hlog2. destruct w; reflexivity. }
  assert (Hvars2 : same_vars w w2).
  { destruct Hv2 as (A1 & A2 & A3). destruct w; repeat split; assumption. }
  pose proof (readTempOneShotInt_eq e fuel w) as Hrun.
  rewrite Elm in Hrun. fold w2 in Hrun. rewrite Hp in Hrun.
  destruct ex; unfold poll_outcome in Hout.
  - (* the conversion was seen done *)
    destruct Hout as ((c & older & Hc & Hbit) & Hread).
    destruct (readTemperature_spec e 0xAA w3) as (Em & El & Hlog4 & _ & _).
    fold (readT e) in Em, El, Hlog4.
    cbv zeta in Hrun. set (w4 := snd (readT e w3)) in *.
    assert (Bm : 0 <= MSByte w4 < 256) by (rewrite Em; apply to_u8_range).
    assert (Bl : 0 <= LSByte w4 < 256) by (rewrite El; apply to_u8_range).
    destruct (word_bytes _ _ Bm Bl) as [Hword _].
    assert (Ha : _address w3 = _address w).
    { destruct Hv3 as [A3 _]. destruct Hvars2 as [A2 _]. congruence. }
    eexists fuel, _, w4, (_ :: _ :: new ++ start).
    split; [exact Hrun |].
    split; [rewrite Hlog4, Hlog3, Hlog2'; cbn [app]; rewrite <- app_assoc;
            reflexivity |].
    split.
    + intros Hclear. exfalso.
      cbn [config_observed is_config_read] in Hclear.
      change (2 =? 1) with false in Hclear. cbv iota in Hclear.
      rewrite config_observed_app, Hc in Hclear.
      inversion Hclear; subst. congruence.
    + intros _.
      split; [exact Hword |]. split; [exact Bm |]. split; [exact Bl |].
      split.
      * rewrite Ha. eexists _, _, _, _. split; [reflexivity |].
        split; [exact Em | exact El].
      * cbn [millis_readings]. rewrite millis_readings_app. apply Forall_app.
        split; [exact Hread |]. repeat constructor. unfold t0. lia.
  - (* the poll timed out *)
    destruct Hout as (Hclear & k & t & rest & earlier & Hnew & Hmr & Hlate & Hearly).
    exists fuel, 32768, w3, (new ++ start).
    split; [exact Hrun |].
    split; [rewrite Hlog3, Hlog2', <- app_assoc; reflexivity |].
    rewrite config_observed_app, millis_readings_app.
    cbn [config_observed millis_readings app start]. rewrite app_nil_r.
    split.
    + intros _. split; [reflexivity |].
      pose proof (same_vars_trans _ _ _ Hvars2 Hv3) as (_ & Vm & Vl).
      split; [exact Vm |]. split; [exact Vl |].
      exists k, t, (rest ++ start), (earlier ++ [t0]).
      split; [rewrite Hnew; reflexivity |].
      split; [rewrite Hmr; reflexivity |].
      split; [exact Hlate |].
      apply Forall_app. split; [exact Hearly |].
      repeat constructor. unfold t0. lia.
    + intros Hset. exfalso.
      apply Exists_exists in Hset. destruct Hset as (c & Hin & Hbit).
      rewrite Forall_forall in Hclear. rewrite (Hclear c Hin) in Hbit.
      discriminate.
Qed.

Lemma readTempOneShotInt_outcomes_witness :
  ((forall k, time_at (steady 1 [0x0C]) k <= time_at (steady 1 [0x0C]) (S k)) /\
   (tick idle <= 1001)%nat /\
   1000 < time_at (steady 1 [0x0C]) 1001 - time_at (steady 1 [0x0C]) (tick idle) /\
   time_at (steady 1 [0x0C]) (1001 + 4) - time_at (steady 1 [0x0C]) (tick idle)
   < 2 ^ 31) /\
  exists fuel w',
    readTempOneShotInt (steady 1 [0x0C]) fuel idle = Some (32768, w') /\
    MSByte w' = MSByte idle.
Proof.
  assert (H1 : forall k, time_at (steady 1 [0x0C]) k
                         <= time_at (steady 1 [0x0C]) (S k))
    by (intros k; cbn [time_at steady]; lia).
  assert (H2 : (tick idle <= 1001)%nat) by (cbn; lia).
  assert (H3 : 1000 < time_at (steady 1 [0x0C]) 1001
                      - time_at (steady 1 [0x0C]) (tick idle))
    by (cbn [time_at steady tick idle DS1631]; lia).
  assert (H4 : time_at (steady 1 [0x0C]) (1001 + 4)
               - time_at (steady 1 [0x0C]) (tick idle) < 2 ^ 31)
    by (cbn [time_at steady tick idle DS1631]; lia).
  split; [auto |].
  destruct (readTempOneShotInt_outcomes (steady 1 [0x0C]) idle 1001 H1 H2 H3 H4)
    as (fuel & T & w' & new & Hrun & _ & Hclear & _).
  exists fuel, w'.
  destruct Hclear as (-> & Hm & _); [| auto].
  apply config_observed_all. intros k. reflexivity.
Defined.

(** ** What the one-shot reads put on the bus *)

Lemma busy_wait_frame (e : Env) (lastMillis : Z) (fuel : nat) :
  forall elapsed w r w',
    busy_wait e fuel lastMillis elapsed w = Some (r, w') ->
    written (log w') = written (log w) /\ same_vars w w'.
Proof.
  induction fuel as [|fuel IH]; intros elapsed w r w'; cbn [busy_wait].
  - destruct (elapsed <? 50); [discriminate |].
    intros H. injection H as _ <-. split; [reflexivity | apply same_vars_refl].
  - destruct (elapsed <? 50).
    + unfold millis at 1. intros H. apply IH in H. destruct H as [Hw Hv].
      split; [exact Hw |]. destruct w; exact Hv.
    + intros H. injection H as _ <-. split; [reflexivity | apply same_vars_refl].
Qed.

(** The polling loop only ever sends the Access Config opcode. *)
Lemma poll_frame (e : Env) (lastMillis : Z) (fuel : nat) :
  forall w ex w',
    poll e fuel lastMillis w = Some (ex, w') ->
    exists n : nat,
      (1 <= n)%nat /\
      written (log w') = repeat [0xAC] n ++ written (log w) /\
      same_vars w w'.
Proof.
  induction fuel as [|fuel IH]; intros w ex w'; cbn [poll]; [discriminate |].
  destruct (readConfig_spec e w) as (_ & Hlog & _ & Hv).
  rewrite conversionDone_spec.
  set (w1 := snd (readConfig e w)) in *.
  assert (Hw1 : written (log w1) = [0xAC] :: written (log w))
    by (rewrite Hlog; reflexivity).
  assert (Hv1 : same_vars w w1) by exact Hv.
  destruct (Z.testbit (fst (readConfig e w)) 7); cbn [negb].
  - intros H. injection H as _ <-. exists 1%nat. auto.
  - destruct (busy_wait e fuel lastMillis 0 w1) as [[el w2] |] eqn:Eb;
      [| discriminate].
    destruct (busy_wait_frame _ _ _ _ _ _ _ Eb) as [Hw2 Hv2].
    destruct (el >? 1000).
    + intros H. injection H as _ <-. exists 1%nat.
      split; [lia |]. split; [rewrite Hw2; exact Hw1 |].
      exact (same_vars_trans _ _ _ Hv1 Hv2).
    + intros H. apply IH in H. destruct H as (n & Hn & Hw3 & Hv3).
      exists (S n). split; [lia |].
      split.
      * rewrite Hw3, Hw2, Hw1. change ([0xAC] :: written (log w))
          with ([[0xAC]] ++ written (log w)).
        rewrite app_assoc, <- repeat_cons. reflexivity.
      * exact (same_vars_trans _ _ _ Hv1 (same_vars_trans _ _ _ Hv2 Hv3)).
Qed.

(** X14.  The commands of a one-shot read, oldest first: start conversion,
    then one or more reads of the configuration register, then, only when
    the conversion was seen done, the temperature read, followed by stop
    conversion in [readTempOneShot] and by nothing in [readTempOneShotInt].
    A read that times out sends neither the temperature read nor stop
    conversion and leaves [MSByte] and [LSByte] as they were; the integer
    variant never sends stop conversion. *)
Theorem one_shot_commands (e : Env) (fuel : nat) (w : World) :
  (forall T w',
     readTempOneShot e fuel w = Some (T, w') ->
     exists n : nat,
       (1 <= n)%nat /\
       ((T = inject_Z (-32768) /\
         written (log w') = repeat [0xAC] n ++ [0x51] :: written (log w) /\
         MSByte w' = MSByte w /\ LSByte w' = LSByte w) \/
        ((-128 <= T)%Q /\ (T < 128)%Q /\
         written (log w')
         = [0x22] :: [0xAA] :: repeat [0xAC] n ++ [0x51] :: written (log w)))) /\
  (forall T w',
     readTempOneShotInt e fuel w = Some (T, w') ->
     exists n : nat,
       (1 <= n)%nat /\
       ((T = 32768 /\
         written (log w') = repeat [0xAC] n ++ [0x51] :: written (log w) /\
         MSByte w' = MSByte w /\ LSByte w' = LSByte w) \/
        (T = word (MSByte w') (LSByte w') /\
         written (log w')
         = [0xAA] :: repeat [0xAC] n ++ [0x51] :: written (log w)))).
Proof.
  destruct (command_spec e (snd (millis e w))) as [(Hlog2 & _ & Hv2) _].
  assert (Hw2 : written (log (snd (poll_start e w))) = [0x51] :: written (log w)).
  { change (snd (poll_start e w))
      with (snd (startConversion e (snd (millis e w)))).
    rewrite Hlog2. reflexivity. }
  assert (Hvars2 : same_vars w (snd (poll_start e w))).
  { change (snd (poll_start e w))
      with (snd (startConversion e (snd (millis e w)))).
    destruct Hv2 as (A1 & A2 & A3). destruct w; repeat split; assumption. }
  split; intros T w' Hrun.
  - assert (Hrun' : match poll e fuel (fst (poll_start e w)) (snd (poll_start e w)) with
                    | Some (TimedOut, w3) => Some (inject_Z (-32768), w3)
                    | Some (Converted, w3) =>
                      Some (fst (readTempF e w3),
                            snd (stopConversion e (snd (readTempF e w3))))
                    | None => None
                    end = Some (T, w')).
    { rewrite <- Hrun. unfold readTempOneShot, poll_start.
      destruct (millis e w) as [now w1].
      destruct (startConversion e w1) as [[] w2]. cbn [fst snd].
      destruct (poll e fuel (to_long now) w2) as [[[] w3] |]; try reflexivity.
      unfold bind, ret. destruct (readTempF e w3) as [T0 w4]. cbn [fst snd].
      destruct (stopConversion e w4) as [[] w5]. reflexivity. }
    destruct (poll e fuel _ _) as [[ex w3] |] eqn:Ep; [| discriminate].
    destruct (poll_frame _ _ _ _ _ _ Ep) as (n & Hn & Hw3 & Hv3).
    exists n. split; [exact Hn |]. rewrite Hw2 in Hw3.
    destruct ex; injection Hrun' as <- <-.
    + right.
      destruct (readTempF_range e w3) as (_ & _ & _ & Hlo & Hhi & _).
      split; [exact Hlo |]. split; [exact Hhi |].
      destruct (command_spec e (snd (readTempF e w3))) as [_ (Hlog5 & _)].
      change (written (log (snd (stopConversion e (snd (readTempF e w3)))))
              = [0x22] :: [0xAA] :: repeat [0xAC] n ++ [0x51] :: written (log w)).
      rewrite Hlog5. cbn [written]. f_equal.
      rewrite readTempF_eq.
      destruct (readTemperature_spec e 0xAA w3) as (Em & El & Hlog4 & _).
      fold (readT e) in Em, El, Hlog4.
      destruct (byteToFloat_state (snd (readT e w3))) as (_ & _ & ->);
        try (first [rewrite Em | rewrite El]; apply to_u8_range).
      rewrite Hlog4. cbn [written]. rewrite Hw3. reflexivity.
    + left. split; [reflexivity |]. split; [exact Hw3 |].
      destruct (same_vars_trans _ _ _ Hvars2 Hv3) as (_ & Vm & Vl). auto.
  - rewrite readTempOneShotInt_eq in Hrun.
    destruct (poll e fuel _ _) as [[ex w3] |] eqn:Ep; [| discriminate].
    destruct (poll_frame _ _ _ _ _ _ Ep) as (n & Hn & Hw3 & Hv3).
    exists n. split; [exact Hn |]. rewrite Hw2 in Hw3.
    destruct ex; cbv zeta in Hrun; injection Hrun as <- <-.
    + right. split; [reflexivity |].
      destruct (readTemperature_spec e 0xAA w3) as (_ & _ & Hlog4 & _).
      fold (readT e) in Hlog4. rewrite Hlog4. cbn [written].
      rewrite Hw3. reflexivity.
    + left. split; [reflexivity |]. split; [exact Hw3 |].
      destruct (same_vars_trans _ _ _ Hvars2 Hv3) as (_ & Vm & Vl). auto.
Qed.

Lemma one_shot_commands_witness :
  (exists T w',
     readTempOneShotInt (sensor 20 6 0x0C 0xE6 0x80) 10 idle = Some (T, w')) /\
  forall T w',
    readTempOneShotInt (sensor 20 6 0x0C 0xE6 0x80) 10 idle = Some (T, w') ->
    ~ In [0x22] (written (log w')).
Proof.
  split; [eexists; eexists; vm_compute; reflexivity |].
  intros T w' Hrun.
  destruct (one_shot_commands (sensor 20 6 0x0C 0xE6 0x80) 10 idle) as [_ Hint].
  destruct (Hint T w' Hrun) as (n & _ & [(_ & Hw & _) | (_ & Hw)]);
    rewrite Hw; clear; cbn [written log idle DS1631].
  - intros Hin. apply in_app_or in Hin. destruct Hin as [Hin | Hin].
    + apply repeat_spec in Hin. discriminate.
    + cbn in Hin. destruct Hin as [Hin | []]. discriminate.
  - intros [Hin | Hin]; [discriminate |].
    apply in_app_or in Hin. destruct Hin as [Hin | Hin].
    + apply repeat_spec in Hin. discriminate.
    + cbn in Hin. destruct Hin as [Hin | []]. discriminate.
Defined.

(** ** The wait before the first re-read *)

Lemma config_read_times_app (l1 l2 : list Event) :
  config_read_times (l1 ++ l2) = config_read_times l2 ++ config_read_times l1.
Proof.
  unfold config_read_times. rewrite rev_app_distr, filter_app, map_app.
  reflexivity.
Qed.

Lemma config_read_times_Forall (P : Z -> Prop) (l : list Event) :
  Forall (fun ev => P (event_time ev)) l -> Forall P (config_read_times l).
Proof.
  intros H. unfold config_read_times. rewrite Forall_forall in *.
  intros t Hin. apply in_map_iff in Hin. destruct Hin as (ev & <- & Hin).
  apply filter_In in Hin. destruct Hin as [Hin _].
  apply H, in_rev, Hin.
Qed.

Section Spacing.

Variable e : Env.
Hypothesis clock_monotone : forall k, time_at e k <= time_at e (S k).

Lemma clock_le (j k : nat) : (j <= k)%nat -> time_at e j <= time_at e k.
Proof.
  intros Hjk. induction Hjk as [|k Hjk IH]; [lia |].
  pose proof (clock_monotone k). lia.
Qed.

(** The events of a busy wait are clock reads, none earlier than its start;
    when the wait is entered, what it returns is the elapsed time computed
    from its last clock read. *)
Lemma busy_wait_events (lastMillis : Z) (fuel : nat) :
  forall elapsed w r w',
    busy_wait e fuel lastMillis elapsed w = Some (r, w') ->
    (tick w <= tick w')%nat /\ 50 <= r /\
    (exists new,
       log w' = new ++ log w /\ config_read_times new = [] /\
       Forall (fun ev => time_at e (tick w) <= event_time ev) new) /\
    (elapsed < 50 ->
     exists kr, (tick w <= kr < tick w')%nat /\
       r = to_long (to_ulong (to_ulong (time_at e kr) - to_ulong lastMillis))).
Proof.
  induction fuel as [|fuel IH]; intros elapsed w r w'; cbn [busy_wait].
  - destruct (Z.ltb_spec elapsed 50) as [Hlt | Hge]; [discriminate |].
    intros H. injection H as <- <-.
    split; [lia |]. split; [lia |].
    split; [exists []; auto | lia].
  - destruct (Z.ltb_spec elapsed 50) as [Hlt | Hge].
    + unfold millis at 1. intros H.
      set (el' := to_long _) in H.
      destruct (IH _ _ _ _ H) as (Htk & H50 & (new & Hlog & Hcfg & Hall) & Hlast).
      cbn [tick interact] in Htk, Hall, Hlast. cbn [log interact] in Hlog.
      split; [lia |]. split; [exact H50 |]. split.
      * exists (new ++ [EvMillis (tick w) (time_at e (tick w))]).
        split; [rewrite Hlog, <- app_assoc; reflexivity |].
        split; [rewrite config_read_times_app, Hcfg; reflexivity |].
        apply Forall_app. split.
        -- eapply Forall_impl; [| exact Hall]. cbv beta. intros ev Hev.
           pose proof (clock_monotone (tick w)). lia.
        -- repeat constructor. cbn. lia.
      * intros _. destruct (Z.lt_ge_cases el' 50) as [Hel | Hel].
        -- destruct (Hlast Hel) as (kr & Hkr & Hr). exists kr. split; [lia | exact Hr].
        -- exists (tick w). split; [lia |].
           destruct fuel; cbn [busy_wait] in H;
             destruct (Z.ltb_spec el' 50) as [Hlt' | Hge']; try lia;
             injection H as <- _; reflexivity.
    + intros H. injection H as <- <-.
      split; [lia |]. split; [lia |].
      split; [exists []; auto | lia].
Qed.

(** In a polling loop that started at time [t0], every read of the
    configuration register but the first comes 50 ms or more after [t0]. *)
Lemma poll_spacing (k0 : nat) (fuel : nat) :
  let t0 := time_at e k0 in
  forall w ex w',
    poll e fuel (to_long (to_ulong t0)) w = Some (ex, w') ->
    (k0 <= tick w)%nat ->
    (forall k, (k < tick w')%nat -> time_at e k - t0 < 2 ^ 31) ->
    (tick w <= tick w')%nat /\
    exists new first others,
      log w' = new ++ log w /\
      Forall (fun ev => time_at e (tick w) <= event_time ev) new /\
      config_read_times new = first :: others /\
      Forall (fun t => t0 + 50 <= t) others.
Proof.
  intros t0.
  induction fuel as [|fuel IH]; intros w ex w'; cbn [poll]; [discriminate |].
  destruct (readConfig_spec e w) as (_ & Hlog1 & Htk1 & _).
  rewrite conversionDone_spec.
  set (w1 := snd (readConfig e w)) in *.
  set (new1 := [EvRx (S (tick w)) (time_at e (S (tick w))) (_address w) 1
                     (firstn 1 (map to_u8 (reply e (S (tick w)) [0xAC])));
                EvTx (tick w) (time_at e (tick w)) (_address w) [0xAC]]).
  assert (Hlog1' : log w1 = new1 ++ log w) by exact Hlog1.
  assert (Hall1 : Forall (fun ev => time_at e (tick w) <= event_time ev) new1).
  { repeat constructor; cbn [event_time]; [apply clock_monotone | lia]. }
  assert (Hcfg1 : config_read_times new1 = [time_at e (S (tick w))]) by reflexivity.
  destruct (Z.testbit (fst (readConfig e w)) 7); cbn [negb].
  - intros H _ _. injection H as _ <-. split; [lia |].
    exists new1, (time_at e (S (tick w))), []. auto.
  - destruct (busy_wait e fuel (to_long (to_ulong t0)) 0 w1) as [[el w2] |] eqn:Eb;
      [| discriminate].
    destruct (busy_wait_events _ _ _ _ _ _ Eb)
      as (Htk2 & H50 & (newb & Hlog2 & Hcfg2 & Hall2) & Hlast).
    destruct (Hlast ltac:(lia)) as (kr & Hkr & Hel).
    assert (Hall2' : Forall (fun ev => time_at e (tick w) <= event_time ev) newb).
    { eapply Forall_impl; [| exact Hall2]. cbv beta. intros ev Hev.
      pose proof (clock_le (tick w) (tick w1) ltac:(lia)). lia. }
    destruct (el >? 1000).
    + intros H _ _. injection H as _ <-. split; [lia |].
      exists (newb ++ new1), (time_at e (S (tick w))), [].
      split; [rewrite Hlog2, Hlog1', app_assoc; reflexivity |].
      split; [apply Forall_app; auto |].
      split; [rewrite config_read_times_app, Hcfg2, Hcfg1; reflexivity |].
      constructor.
    + intros H Hk0 Hrange.
      destruct (IH _ _ _ H ltac:(lia) Hrange)
        as (Htk3 & new3 & first3 & others3 & Hlog3 & Hall3 & Hcfg3 & _).
      (* the clock read that ended the wait showed 50 ms or more *)
      assert (Hwait : t0 + 50 <= time_at e kr).
      { assert (Hr : 0 <= time_at e kr - t0 < 2 ^ 31).
        { pose proof (clock_le k0 kr ltac:(lia)).
          pose proof (Hrange kr ltac:(lia)). unfold t0. lia. }
        rewrite (elapsed_exact _ _ Hr) in Hel. lia. }
      split; [lia |].
      exists (new3 ++ newb ++ new1), (time_at e (S (tick w))),
             (config_read_times new3).
      split; [rewrite Hlog3, Hlog2, Hlog1', !app_assoc; reflexivity |].
      split.
      { apply Forall_app. split; [| apply Forall_app; auto].
        eapply Forall_impl; [| exact Hall3]. cbv beta. intros ev Hev.
        pose proof (clock_le (tick w) (tick w2) ltac:(lia)). lia. }
      split.
      { rewrite !config_read_times_app, Hcfg2, Hcfg1. reflexivity. }
      apply config_read_times_Forall.
      eapply Forall_impl; [| exact Hall3]. cbv beta. intros ev Hev.
      pose proof (clock_le kr (tick w2) ltac:(lia)). lia.
Qed.

End Spacing.

(** X15.  With a clock that never runs backwards, in a one-shot read of
    either variant every read of the configuration register but the first
    comes at least 50 ms after the start of the poll: the first wait is a
    real wait. *)
Theorem first_reread_waits (e : Env) (fuel : nat) (w : World) :
  (forall k, time_at e k <= time_at e (S k)) ->
  let t0 := time_at e (tick w) in
  let spaced_after_first (w' : World) :=
    (forall k, (k < tick w')%nat -> time_at e k - t0 < 2 ^ 31) ->
    exists new first others,
      log w' = new ++ log w /\
      config_read_times new = first :: others /\
      t0 <= first /\
      Forall (fun t => t0 + 50 <= t) others in
  (forall T w', readTempOneShot e fuel w = Some (T, w') -> spaced_after_first w') /\
  (forall T w', readTempOneShotInt e fuel w = Some (T, w') -> spaced_after_first w').
Proof.
  intros Hmono t0 spaced_after_first.
  destruct (command_spec e (snd (millis e w))) as [(Hlog2 & Htk2 & _) _].
  set (w2 := snd (startConversion e (snd (millis e w)))) in *.
  cbn [millis snd interact tick log] in Hlog2, Htk2.
  set (start := [EvTx (S (tick w)) (time_at e (S (tick w)))
                      (_address (interact (EvMillis (tick w) (time_at e (tick w))) w))
                      [0x51];
                 EvMillis (tick w) (time_at e (tick w))]).
  assert (Hlog2' : log w2 = start ++ log w) by exact Hlog2.
  assert (Hstart : config_read_times start = []) by reflexivity.
  (* what the polling loop gives, for both variants *)
  assert (Hpoll : forall ex w3 wend newe,
            poll e fuel (to_long (to_ulong t0)) w2 = Some (ex, w3) ->
            log wend = newe ++ log w3 -> config_read_times newe = [] ->
            (tick w3 <= tick wend)%nat ->
            spaced_after_first wend).
  { intros ex w3 wend newe Hp Hloge Hcfge Htke Hrange.
    destruct (poll_spacing e Hmono (tick w) fuel w2 ex w3 Hp ltac:(lia)
                ltac:(intros k Hk; apply Hrange; lia))
      as (Htk3 & new & first & others & Hlog3 & Hall & Hcfg & Hsp).
    exists (newe ++ new ++ start), first, others.
    split; [rewrite Hloge, Hlog3, Hlog2', <- !app_assoc; reflexivity |].
    split; [rewrite !config_read_times_app, Hstart, Hcfg, Hcfge, app_nil_r;
            reflexivity |].
    split; [| exact Hsp].
    assert (Hf : Forall (fun t => t0 <= t) (config_read_times new)).
    { apply config_read_times_Forall.
      eapply Forall_impl; [| exact Hall]. cbv beta. intros ev Hev.
      pose proof (clock_le e Hmono (tick w) (tick w2) ltac:(lia)).
      unfold t0. lia. }
    rewrite Hcfg in Hf. inversion Hf; assumption. }
  split; intros T w' Hrun.
  - unfold readTempOneShot in Hrun. unfold millis at 1 in Hrun.
    change (interact (EvMillis (tick w) (time_at e (tick w))) w)
      with (snd (millis e w)) in Hrun.
    destruct (startConversion e (snd (millis e w))) as [[] w2'] eqn:Es.
    subst w2. cbn [snd] in *. fold t0 in Hrun.
    destruct (poll e fuel (to_long (to_ulong t0)) w2') as [[ex w3] |] eqn:Ep;
      [| discriminate].
    destruct ex.
    + unfold bind, ret in Hrun.
      destruct (readTempF_range e w3) as (_ & _ & _ & _ & _ & newF & HlogF & _).
      destruct (readTemperature_spec e 0xAA w3) as (_ & _ & Hlog4 & Htk4 & _).
      destruct (command_spec e (snd (readTempF e w3))) as [_ (Hlog5 & Htk5 & _)].
      destruct (readTempF e w3) as [T0 w4] eqn:EF. cbn [fst snd] in *.
      destruct (stopConversion e w4) as [[] w5]. cbn [snd] in *.
      injection Hrun as _ <-.
      assert (Ew4 : log w4 = log (snd (readT e w3)) /\ tick w4 = tick (snd (readT e w3))).
      { rewrite readTempF_eq, byteToFloat_eq in EF. injection EF as _ <-.
        destruct (snd (readT e w3)); split; reflexivity. }
      destruct Ew4 as [El4 Et4]. fold (readT e) in Hlog4, Htk4.
      eapply (Hpoll Converted w3 w5 [_; _; _] eq_refl).
      * rewrite Hlog5, El4, Hlog4. reflexivity.
      * reflexivity.
      * rewrite Htk5, Et4, Htk4. lia.
    + injection Hrun as _ <-.
      apply (Hpoll TimedOut w3 w3 [] eq_refl); [reflexivity | reflexivity | lia].
  - rewrite readTempOneShotInt_eq in Hrun.
    change (fst (poll_start e w)) with (to_long (to_ulong t0)) in Hrun.
    change (snd (poll_start e w)) with w2 in Hrun.
    destruct (poll e fuel (to_long (to_ulong t0)) w2) as [[ex w3] |] eqn:Ep;
      [| discriminate].
    destruct ex; cbv zeta in Hrun; injection Hrun as _ <-.
    + destruct (readTemperature_spec e 0xAA w3) as (_ & _ & Hlog4 & Htk4 & _).
      fold (readT e) in Hlog4, Htk4.
      eapply (Hpoll Converted w3 _ [_; _] eq_refl).
      * rewrite Hlog4. reflexivity.
      * reflexivity.
      * rewrite Htk4. lia.
    + apply (Hpoll TimedOut w3 w3 [] eq_refl); [reflexivity | reflexivity | lia].
Qed.

Lemma first_reread_waits_witness :
  (forall k, time_at (sensor 1 60 0x0C 0x19 0x80) k
             <= time_at (sensor 1 60 0x0C 0x19 0x80) (S k)) /\
  exists T w' new first others,
    readTempOneShot (sensor 1 60 0x0C 0x19 0x80) 100 idle = Some (T, w') /\
    log w' = new ++ log idle /\
    config_read_times new = first :: others /\
    Forall (fun t => 50 <= t) others.
Proof.
  assert (Hmono : forall k, time_at (sensor 1 60 0x0C 0x19 0x80) k
                            <= time_at (sensor 1 60 0x0C 0x19 0x80) (S k))
    by (intros k; cbn [time_at sensor]; lia).
  split; [exact Hmono |].
  destruct (readTempOneShot (sensor 1 60 0x0C 0x19 0x80) 100 idle)
    as [[T w'] |] eqn:E; [| vm_compute in E; discriminate].
  assert (Htick : tick w' = 65%nat).
  { apply (f_equal (option_map (fun p => tick (snd p)))) in E.
    vm_compute in E. injection E as E. symmetry. exact E. }
  destruct (first_reread_waits (sensor 1 60 0x0C 0x19 0x80) 100 idle Hmono)
    as [Hfloat _].
  destruct (Hfloat T w' E) as (new & first & others & Hlog & Hcfg & _ & Hsp).
  { intros k Hk. rewrite Htick in Hk. cbn [time_at sensor tick idle DS1631]. lia. }
  exists T, w', new, first, others.
  split; [reflexivity |]. split; [exact Hlog |]. split; [exact Hcfg |].
  exact Hsp.
Defined.

(** ** One device on the bus *)















(** ** Instances of the comparison with IEEE 754 arithmetic *)

Lemma decode_agrees_with_IEEE_witness :
  (IEEE.binary32 = IEEE.binary32 \/ IEEE.binary32 = IEEE.binary64) /\
  0 <= 0xFF < 256 /\ 0 <= 0x80 < 256 /\
  exists q : Q,
    IEEE.value (IEEE.byteToFloat IEEE.binary32 0xFF 0x80) = Some q /\
    (q == -0.5)%Q.
Proof.
  assert (HD : IEEE.binary32 = IEEE.binary32 \/ IEEE.binary32 = IEEE.binary64)
    by (left; reflexivity).
  assert (Hm : 0 <= 0xFF < 256) by lia.
  assert (Hl : 0 <= 0x80 < 256) by lia.
  split; [exact HD |]. split; [exact Hm |]. split; [exact Hl |].
  destruct (decode_agrees_with_IEEE IEEE.binary32 0xFF 0x80 HD Hm Hl)
    as (q & Hq & Heq).
  exists q. split; [exact Hq |]. rewrite Heq. reflexivity.
Defined.

Lemma encode_agrees_with_IEEE_witness :
  (IEEE.binary64 = IEEE.binary32 \/ IEEE.binary64 = IEEE.binary64) /\
  -2048 <= -168 < 2048 /\
  IEEE.floatToByte IEEE.binary64 (IEEE.of_scaled IEEE.binary32 (-168) (-4))
  = Some (0xF6, 0x80).
Proof.
  assert (HD : IEEE.binary64 = IEEE.binary32 \/ IEEE.binary64 = IEEE.binary64)
    by (right; reflexivity).
  assert (Hk : -2048 <= -168 < 2048) by lia.
  split; [exact HD |]. split; [exact Hk |].
  destruct (encode_agrees_with_IEEE IEEE.binary64 (-168) HD Hk)
    as (m & l & w & Hieee & Hq & Hm & Hl).
  rewrite Hieee.
  assert (E : floatToByte ((-168) # 16) idle
              = Some (tt, holding 0xF6 0x80)) by reflexivity.
  rewrite E in Hq. injection Hq as <-. rewrite <- Hm, <- Hl. reflexivity.
Defined.
